(** * Koopman-operator estimation: control flow, rank detection and spectral ordering

    A shallow embedding of the numerical core of the repository:
    [DynamicalSystems/utils.py] (backend selection, pivoted Gram-Schmidt,
    randomized generalized eigensolver), the parameter validation of
    [kooplearn/koopman_estimators/BaseKoopmanEstimator.py] and the estimator
    classes of [legacy_code/koopman_regression.py].

    Scalars are IEEE-754 binary64 numbers (Rocq's primitive floats), which is
    what [numpy.float64] is.  Python exceptions are values of [exn]; code that
    can raise lives in a state-and-exception monad whose state carries the
    object being mutated and whatever was printed or warned. *)

From Stdlib Require Import List String ZArith Lia Bool Floats Sorted Permutation.
Import ListNotations.

Set Implicit Arguments.

(** ** Python exceptions and the monad of effectful code *)

Inductive exn : Type :=
| ValueError (msg : string)
| AttributeError (msg : string)
| TypeError (msg : string)
| NotImplementedError (msg : string)
| AssertionError (msg : string)
| IndexError (msg : string)
| ZeroDivisionError
| OverflowError (msg : string)
| LinAlgError
| RecursionError.

Inductive result (A : Type) : Type :=
| Ok (a : A)
| Raise (e : exn).

Arguments Ok {A} a.
Arguments Raise {A} e.

(** What a call leaves on the terminal or in the warnings registry. *)
Inductive event : Type :=
| Print (text : string) (values : list float)
| PrintInt (text : string) (n : Z)
| Warn (msg : string)
| KernelEval (backend : string)
| Call (method : string).

(** [M S A]: a computation over a state [S] that returns an [A] or raises.
    The state survives a raise, as a Python object keeps the attributes that
    were assigned before the exception. *)
Definition M (S A : Type) : Type := S -> result A * S.

Definition ret {S A} (a : A) : M S A := fun s => (Ok a, s).

Definition raise {S A} (e : exn) : M S A := fun s => (Raise e, s).

Definition bind {S A B} (m : M S A) (f : A -> M S B) : M S B :=
  fun s => match m s with
           | (Ok a, s') => f a s'
           | (Raise e, s') => (Raise e, s')
           end.

Definition get {S} : M S S := fun s => (Ok s, s).

Definition modify {S} (f : S -> S) : M S unit := fun s => (Ok tt, f s).

Definition lift_result {S A} (r : result A) : M S A := fun s => (r, s).

Declare Scope py_scope.
Delimit Scope py_scope with py.
Notation "x <- m ;; k" := (bind m (fun x => k))
  (at level 61, m at next level, right associativity) : py_scope.
Notation "m ;;; k" := (bind m (fun _ => k))
  (at level 61, right associativity) : py_scope.

Definition is_attribute_error (e : exn) : bool :=
  match e with AttributeError _ => true | _ => false end.

(** [try: body except AttributeError: handler]. *)
Definition except_AttributeError {S A} (body handler : M S A) : M S A :=
  fun s => match body s with
           | (Raise e, s') => if is_attribute_error e then handler s' else (Raise e, s')
           | r => r
           end.

(** ** numpy arrays of binary64 numbers *)

Definition vec := list float.

(** A two-dimensional array, stored by columns together with its number of
    rows (an array with no column still has a [shape[0]]). *)
Record ndarray : Type := mkarr { shape0 : nat; columns : list vec }.

Definition shape1 (A : ndarray) : nat := List.length (columns A).

Definition float_of_nat (n : nat) : float :=
  PrimFloat.of_uint63 (Uint63.of_Z (Z.of_nat n)).

Definition vzeros (n : nat) : vec := repeat 0%float n.

Definition vadd (u v : vec) : vec := map (fun p => (fst p + snd p)%float) (combine u v).
Definition vsub (u v : vec) : vec := map (fun p => (fst p - snd p)%float) (combine u v).
Definition vscale (a : float) (v : vec) : vec := map (fun x => (x * a)%float) v.
Definition vdiv (v : vec) (a : float) : vec := map (fun x => (x / a)%float) v.

(** Sums are accumulated from left to right. *)
Definition fsum (l : list float) : float := fold_left PrimFloat.add l 0%float.

Definition dot (u v : vec) : float :=
  fsum (map (fun p => (fst p * snd p)%float) (combine u v)).

(** [A @ v] for a one-dimensional [v]: entry [i] is [sum_j A[i,j] * v[j]]. *)
Definition matvec (A : ndarray) (v : vec) : vec :=
  fold_left (fun acc p => vadd acc (vscale (snd p) (fst p)))
            (combine (columns A) v) (vzeros (shape0 A)).

(** [A @ B]. *)
Definition matmul (A B : ndarray) : ndarray :=
  mkarr (shape0 A) (map (matvec A) (columns B)).

(** [v @ B] for a one-dimensional [v]: one dot product per column of [B]. *)
Definition vecmat (v : vec) (B : list vec) : vec := map (dot v) B.

(** [np.eye(n)] and [scipy.sparse.identity(n)]: both are the identity. *)
Definition unit_vec (n j : nat) : vec :=
  map (fun i => if Nat.eqb i j then 1%float else 0%float) (seq 0 n).
Definition eye (n : nat) : ndarray := mkarr n (map (unit_vec n) (seq 0 n)).
Definition identity (n : nat) : ndarray := eye n.

(** [np.zeros((n, m))]. *)
Definition zeros (n m : nat) : ndarray := mkarr n (repeat (vzeros n) m).

Fixpoint set_nth {A} (i : nat) (x : A) (l : list A) : list A :=
  match l, i with
  | [], _ => []
  | _ :: t, O => x :: t
  | h :: t, S i' => h :: set_nth i' x t
  end.

(** [l[[i, j]] = l[[j, i]]]: the right-hand side is read before any write. *)
Definition swap_nth {A} (d : A) (i j : nat) (l : list A) : list A :=
  let a := nth i l d in
  let b := nth j l d in
  set_nth j a (set_nth i b l).

(** [np.argmax]: the first index holding the maximum; a NaN counts as the
    maximum and stops the scan. *)
Fixpoint argmax_from (best : float) (besti i : nat) (l : list float) : nat :=
  match l with
  | [] => besti
  | x :: t =>
      if negb (x <=? best)%float
      then (if (x =? x)%float then argmax_from x i (S i) t else i)
      else argmax_from best besti (S i) t
  end.

Definition argmax (l : list float) : result nat :=
  match l with
  | [] => Raise (ValueError "attempt to get argmax of an empty sequence")
  | x :: t => Ok (if (x =? x)%float then argmax_from x 0 1 t else 0)
  end.

(** [A + B], [A - B], [a * A] and [A / a], entry by entry. *)
Definition madd (A B : ndarray) : ndarray :=
  mkarr (shape0 A) (map (fun p => vadd (fst p) (snd p)) (combine (columns A) (columns B))).
Definition msub (A B : ndarray) : ndarray :=
  mkarr (shape0 A) (map (fun p => vsub (fst p) (snd p)) (combine (columns A) (columns B))).
Definition mscale (a : float) (A : ndarray) : ndarray :=
  mkarr (shape0 A) (map (vscale a) (columns A)).
Definition mdiv (A : ndarray) (a : float) : ndarray :=
  mkarr (shape0 A) (map (fun c => vdiv c a) (columns A)).

(** [A.T]. *)
Definition transpose (A : ndarray) : ndarray :=
  mkarr (shape1 A)
        (map (fun i => map (fun c => nth i c 0%float) (columns A)) (seq 0 (shape0 A))).

(** [np.diag(d)] for a one-dimensional [d]. *)
Definition diag_mat (d : vec) : ndarray :=
  let n := List.length d in
  mkarr n (map (fun jd => map (fun i => if Nat.eqb i (fst jd) then snd jd else 0%float)
                              (seq 0 n))
               (combine (seq 0 n) d)).

(** [np.trace(A)]. *)
Definition trace (A : ndarray) : float :=
  fsum (map (fun jc => nth (fst jc) (snd jc) 0%float)
            (combine (seq 0 (shape1 A)) (columns A))).

(** [np.linalg.norm(A, axis=0)]: the Euclidean norm of each column. *)
Definition col_norms (A : ndarray) : vec :=
  map (fun c => PrimFloat.sqrt (fsum (map (fun x => (x * x)%float) c))) (columns A).

(** [int(x)] for a Python float: truncation towards zero. *)
Definition py_int (x : float) : result Z :=
  match Prim2SF x with
  | S754_zero _ => Ok 0%Z
  | S754_infinity _ => Raise (OverflowError "cannot convert float infinity to integer")
  | S754_nan => Raise (ValueError "cannot convert float NaN to integer")
  | S754_finite s m e =>
      let v := if (0 <=? e)%Z then (Zpos m * 2 ^ e)%Z else (Zpos m / 2 ^ (- e))%Z in
      Ok (if s then (- v)%Z else v)
  end.

(** [l[:r]] with Python's reading of a negative bound. *)
Definition slice_to {A} (r : Z) (l : list A) : list A :=
  if (0 <=? r)%Z then firstn (Z.to_nat r) l
  else firstn (List.length l - Z.to_nat (- r)) l.

(** [np.linalg.norm(X, ord=1)]: the largest column sum of absolute values.
    [np.max] propagates a NaN and refuses an empty array. *)
Definition fmax (a b : float) : float :=
  if negb (a =? a)%float then a
  else if negb (b =? b)%float then b
  else if (a <? b)%float then b else a.

Definition norm1 (X : list vec) : result float :=
  match map (fun c => fsum (map PrimFloat.abs c)) X with
  | [] => Raise (ValueError "zero-size array to reduction operation maximum which has no identity")
  | s :: t => Ok (fold_left fmax t s)
  end.

(** [X - np.diag(np.diag(X))]. *)
Definition minus_diag (X : list vec) : list vec :=
  map (fun jc => map (fun ix => if Nat.eqb (fst ix) (fst jc)
                                then (snd ix - snd ix)%float
                                else (snd ix - 0)%float)
                     (combine (seq 0 (List.length (snd jc))) (snd jc)))
      (combine (seq 0 (List.length X)) X).

Definition print {S} (inj : event -> S -> S) (text : string) (values : list float) : M S unit :=
  modify (inj (Print text values)).

Definition log_event (e : event) (out : list event) : list event := out ++ [e].

(** ** DynamicalSystems/utils.py *)

Module Utils.

Open Scope string_scope.

(** [parse_backend(backend, X)]. *)
Definition parse_backend (backend : string) (X : ndarray) : result string :=
  if backend =? "keops" then Ok backend
  else if backend =? "cpu" then Ok backend
  else if backend =? "auto" then
    (if (shape0 X <? 2000)%nat then Ok "cpu" else Ok "keops")
  else Raise (ValueError ("Unrecognized backend '" ++ backend
                          ++ "'. Accepted values are 'auto', 'cpu' or 'keops'.")).

(** The tolerance of the rank test, [1e-12]. *)
Definition pivot_tol : float := 0x1.19799812dea11p-40%float.

(** The state of the loop of [modified_QR]: the working copy [Q], the
    triangular factor [R] and the column permutation [perm_]. *)
Record qr_state : Type := mkqr { qr_Q : list vec; qr_R : list vec; qr_perm : list nat }.

(** [np.diag(Q[:,k:].T @ M @ Q[:,k:])], given the columns [Q[:,k:]]. *)
Definition weighted_sq_norms (M_ : ndarray) (Qk : list vec) : vec :=
  map (fun q => dot (vecmat q (columns M_)) q) Qk.

(** [idx = np.argmax(nrm_)] followed by [idx = 0]. *)
Definition select_pivot (nrm_ : vec) : result nat :=
  match argmax nrm_ with
  | Raise e => Raise e
  | Ok idx => let idx := 0 in Ok idx
  end.

(** [R[k, j0:] = row]. *)
Definition set_row_from (k j0 : nat) (row : vec) (R : list vec) : list vec :=
  (firstn j0 R ++ map (fun cr => set_nth k (snd cr) (fst cr)) (combine (skipn j0 R) row))%list.

(** [Q[:, j0:] -= np.outer(q, row)]. *)
Definition deflate_from (j0 : nat) (q row : vec) (Q : list vec) : list vec :=
  (firstn j0 Q ++ map (fun cr => vsub (fst cr) (vscale (snd cr) q)) (combine (skipn j0 Q) row))%list.

(** The diagonal pivot that step [k] stores in [R[k,k]]. *)
Definition pivot_norm (M_ : ndarray) (k : nat) (st : qr_state) : float :=
  PrimFloat.sqrt (PrimFloat.abs (nth 0 (weighted_sq_norms M_ (skipn k (qr_Q st))) 0%float)).

(** One pass through the body of [for k in range(0, vecs)].  The boolean is
    [false] when the pass ends in [rank = k; break]. *)
Definition qr_step (M_ : ndarray) (dim vecs k : nat) (st : qr_state)
  : result (qr_state * bool) :=
  if negb (Nat.eqb (shape0 M_) dim && Nat.eqb (shape1 M_) dim)
  then Raise (ValueError "matmul: Input operand 1 has a mismatch in its core dimension 0")
  else
  let nrm_ := weighted_sq_norms M_ (skipn k (qr_Q st)) in
  match select_pivot nrm_ with
  | Raise e => Raise e
  | Ok idx =>
      let perm_ := swap_nth 0 k (k + idx) (qr_perm st) in
      let Q := swap_nth [] k (k + idx) (qr_Q st) in
      let R := swap_nth [] k (k + idx) (qr_R st) in
      let Rkk := PrimFloat.sqrt (PrimFloat.abs (nth idx nrm_ 0%float)) in
      let R := set_nth k (set_nth k Rkk (nth k R [])) R in
      if negb (Rkk <? pivot_tol)%float then
        let qk := vdiv (nth k Q []) Rkk in
        let Q := set_nth k qk Q in
        if (k <? vecs - 1)%nat then
          let row := vecmat (matvec M_ qk) (skipn (k + 1) Q) in
          let R := set_row_from k (k + 1) row R in
          let Q := deflate_from (k + 1) qk row Q in
          Ok (mkqr Q R perm_, true)
        else Ok (mkqr Q R perm_, true)
      else Ok (mkqr Q R perm_, false)
  end.

(** The loop, with [rank] as the variable the [break] branch overwrites. *)
Fixpoint qr_loop (M_ : ndarray) (dim vecs : nat) (ks : list nat) (st : qr_state) (rank : nat)
  : result (qr_state * nat) :=
  match ks with
  | [] => Ok (st, rank)
  | k :: ks' =>
      match qr_step M_ dim vecs k st with
      | Raise e => Raise e
      | Ok (st', true) => qr_loop M_ dim vecs ks' st' rank
      | Ok (st', false) => Ok (st', k)
      end
  end.

(** [normalised M_ dim vecs k st r st']: entered at step [k] in state [st],
    the loop passes the steps [k], ..., [r - 1] without breaking, each with a
    pivot that is not below the tolerance, and stands before step [r] in
    state [st']. *)
Inductive normalised (M_ : ndarray) (dim vecs : nat)
  : nat -> qr_state -> nat -> qr_state -> Prop :=
| normalised_none k st : normalised M_ dim vecs k st k st
| normalised_step k st st1 r st' :
    (pivot_norm M_ k st <? pivot_tol)%float = false ->
    qr_step M_ dim vecs k st = Ok (st1, true) ->
    normalised M_ dim vecs (S k) st1 r st' ->
    normalised M_ dim vecs k st r st'.

(** The weighted squared norm of a single column: [q.T @ M @ q]. *)
Definition sq_norm (M_ : ndarray) (q : vec) : float := dot (vecmat q (columns M_)) q.

(** The state a pass through the loop body leaves when the pivot is not
    below the tolerance and nothing was swapped. *)
Definition normalise_step (M_ : ndarray) (vecs k : nat) (st : qr_state) : qr_state :=
  let Rkk := pivot_norm M_ k st in
  let R := set_nth k (set_nth k Rkk (nth k (qr_R st) [])) (qr_R st) in
  let qk := vdiv (nth k (qr_Q st) []) Rkk in
  let Q := set_nth k qk (qr_Q st) in
  if (k <? vecs - 1)%nat then
    let row := vecmat (matvec M_ qk) (skipn (k + 1) Q) in
    mkqr (deflate_from (k + 1) qk row Q) (set_row_from k (k + 1) row R) (qr_perm st)
  else mkqr Q R (qr_perm st).

(** The state the [break] branch leaves: only [R[k,k]] was written. *)
Definition break_step (M_ : ndarray) (k : nat) (st : qr_state) : qr_state :=
  let Rkk := pivot_norm M_ k st in
  mkqr (qr_Q st) (set_nth k (set_nth k Rkk (nth k (qr_R st) [])) (qr_R st)) (qr_perm st).

(** What the loop keeps: the number of columns of [Q] and of [R], and the
    permutation it started with. *)
Definition qr_inv (vecs : nat) (st : qr_state) : Prop :=
  List.length (qr_Q st) = vecs
  /\ List.length (qr_R st) = vecs
  /\ qr_perm st = seq 0 vecs.

(** The state [modified_QR] enters its loop with. *)
Definition qr_init (A : ndarray) : qr_state :=
  mkqr (columns A) (columns (zeros (shape1 A) (shape1 A))) (seq 0 (shape1 A)).

(** [modified_QR(A, backend, M=None)]; the state is the terminal output. *)
Definition modified_QR (A : ndarray) (backend : string) (M_ : option ndarray)
  : M (list event) ndarray :=
  (backend <- lift_result (parse_backend backend A) ;;
   let dim := shape0 A in
   let vecs := shape1 A in
   let rank := vecs in
   let M_ := match M_ with
             | None => if backend =? "keops" then identity dim else eye dim
             | Some m => m
             end in
   sr <- lift_result (qr_loop M_ dim vecs (seq 0 vecs) (qr_init A) rank) ;;
   let st := fst sr in
   let rank := snd sr in
   err <- lift_result (norm1 (minus_diag (qr_R st))) ;;
   print log_event "orthogonality error:" [err] ;;;
   ret (mkarr dim (firstn rank (map (fun j => nth j (qr_Q st) []) (qr_perm st)))))%py.


(** The routines [rSVD] takes from numpy and scipy: the Gaussian generator
    (a function of the generator's state), the spectral norm, the symmetric
    positive-definite solver and the symmetric eigensolver. *)
Record linalg (rng : Type) : Type := mk_linalg {
  randn : nat -> nat -> rng -> ndarray * rng;
  norm2 : ndarray -> float;
  solve : ndarray -> ndarray -> result ndarray;
  eigh : ndarray -> result (vec * ndarray)
}.

(** What [rSVD] reads and writes besides its arguments: the terminal and the
    process-wide random generator. *)
Record world (rng : Type) : Type := mk_world { out : list event; gen : rng }.

Section RSVD.

Variable rng : Type.
Variable E : linalg rng.

Definition emit (e : event) (w : world rng) : world rng :=
  mk_world (log_event e (out w)) (gen w).

(** Running a computation that only prints inside [world]. *)
Definition printing {A} (m : M (list event) A) : M (world rng) A :=
  fun w => let (r, o) := m (out w) in (r, mk_world o (gen w)).

Definition draw (n l : nat) : M (world rng) ndarray :=
  fun w => let (a, g) := randn E n l (gen w) in (Ok a, mk_world (out w) g).

(** [Kx + n*reg*np.eye(n)]. *)
Definition regularized (Kx : ndarray) (n : nat) (reg : float) : ndarray :=
  madd Kx (mscale (float_of_nat n * reg)%float (eye n)).

(** One pass through the body of [for j in range(powers)]. *)
Definition power_round (Kx Ky : ndarray) (n : nat) (reg : float) (Omega : ndarray)
  : result ndarray :=
  let KyO := matmul Ky Omega in
  match solve E (regularized Kx n reg) KyO with
  | Raise e => Raise e
  | Ok z => Ok (msub KyO (mscale (float_of_nat n * reg)%float z))
  end.

Fixpoint power_rounds (Kx Ky : ndarray) (n : nat) (reg : float) (powers : nat)
  (Omega : ndarray) : result ndarray :=
  match powers with
  | O => Ok Omega
  | S p =>
      match power_round Kx Ky n reg Omega with
      | Raise e => Raise e
      | Ok Omega' => power_rounds Kx Ky n reg p Omega'
      end
  end.

(** The solve that follows the loop. *)
Definition final_solve (Kx Ky : ndarray) (n : nat) (reg : float) (Omega : ndarray)
  : result ndarray :=
  let KyO := matmul Ky Omega in
  solve E (regularized Kx n reg) KyO.

(** [Ky@V/n - (V+n*reg*U)@np.diag(svals2)]. *)
Definition gep_residual (Kx Ky : ndarray) (n : nat) (reg : float)
  (U V : ndarray) (svals2 : vec) : ndarray :=
  msub (mdiv (matmul Ky V) (float_of_nat n))
       (matmul (madd V (mscale (float_of_nat n * reg)%float U)) (diag_mat svals2)).

(** The threshold of the residual test, [1e-6]. *)
Definition gep_tol : float := 0x1.0c6f7a0b5ed8dp-20%float.

(** The last statements of [rSVD] before its [return]. *)
Definition check_residual (Kx Ky : ndarray) (n : nat) (reg : float)
  (U V : ndarray) (svals2 : vec) : M (world rng) unit :=
  (error_ <- lift_result (norm1 (columns (gep_residual Kx Ky n reg U V svals2))) ;;
   if (gep_tol <? error_)%float
   then print emit "Attention! l1 Error in GEP is " [error_]
   else ret tt)%py.

(** Everything [rSVD] does up to and including [V = Kx @ U]. *)
Definition rSVD_factors (Kx Ky : ndarray) (reg : float) (rank : option Z)
  (powers offset : Z) : M (world rng) (ndarray * ndarray * vec) :=
  (let n := shape0 Kx in
   rank <- match rank with
           | Some r => ret r
           | None =>
               r <- lift_result (py_int (trace Ky / norm2 E Ky)%float) ;;
               modify (emit (PrintInt "Numerical rank of the output kernel is approximatly " r)) ;;;
               ret r
           end ;;
   let l := (rank + offset)%Z in
   (if (l <? 0)%Z then raise (ValueError "negative dimensions are not allowed") else ret tt) ;;;
   Omega <- draw n (Z.to_nat l) ;;
   let Omega := matmul Omega (diag_mat (map (fun x => (1 / x)%float) (col_norms Omega))) in
   Omega <- lift_result (power_rounds Kx Ky n reg (Z.to_nat powers) Omega) ;;
   Omega <- lift_result (final_solve Kx Ky n reg Omega) ;;
   Q <- printing (modified_QR Omega "cpu"
                    (Some (madd (mdiv (matmul Kx Kx) (float_of_nat n)) (mscale reg Kx)))) ;;
   (if (Z.of_nat (shape1 Q) <? rank)%Z
    then modify (emit (PrintInt "Actual rank is smaller! Detected rank is "
                                (Z.of_nat (shape1 Q))))
    else ret tt) ;;;
   let C := matmul Kx Q in
   se <- lift_result (eigh E (matmul (matmul (transpose C) Ky) C)) ;;
   let svals2_ := vdiv (rev (fst se)) (float_of_nat (n * n)) in
   let svals2 := slice_to rank svals2_ in
   let evecs := mkarr (shape0 (snd se)) (slice_to rank (rev (columns (snd se)))) in
   print emit "" svals2 ;;;
   let U := matmul Q evecs in
   let V := matmul Kx U in
   ret (U, V, svals2))%py.

(** [rSVD(Kx, Ky, reg, rank=None, powers=2, offset=5, tol=1e-6)]. *)
Definition rSVD (Kx Ky : ndarray) (reg : float) (rank : option Z)
  (powers offset : Z) (tol : float) : M (world rng) (ndarray * ndarray * vec) :=
  (f <- rSVD_factors Kx Ky reg rank powers offset ;;
   check_residual Kx Ky (shape0 Kx) reg (fst (fst f)) (snd (fst f)) (snd f) ;;;
   ret f)%py.

End RSVD.

End Utils.

(** ** kooplearn/koopman_estimators/BaseKoopmanEstimator.py *)

Module Base.

Open Scope string_scope.

(** The hyper-parameters the validation reads, together with the rank a
    low-rank subclass carries. *)
Record BaseKoopmanEstimator : Type := mk_base {
  backend : string;
  svd_solver : string;
  iterated_power : Z;
  n_oversamples : Z;
  rank : Z
}.

(** [x in l] for strings. *)
Definition str_in (x : string) (l : list string) : bool := existsb (String.eqb x) l.

Definition _check_backend_solver_compatibility (self : BaseKoopmanEstimator) : result unit :=
  if negb (str_in (backend self) ["numpy"; "keops"])
  then Raise (ValueError "Invalid backend. Allowed values are 'numpy' and 'keops'.")
  else if negb (str_in (svd_solver self) ["full"; "arnoldi"; "randomized"])
  then Raise (ValueError "Invalid svd_solver. Allowed values are 'full', 'arnoldi' and 'randomized'.")
  else if (svd_solver self =? "randomized") && (iterated_power self <? 0)%Z
  then Raise (ValueError "Invalid iterated_power. Must be non-negative.")
  else if (svd_solver self =? "randomized") && (n_oversamples self <? 0)%Z
  then Raise (ValueError "Invalid n_oversamples. Must be non-negative.")
  else if (svd_solver self =? "full") && (backend self =? "keops")
  then Raise (ValueError "Invalid backend and svd_solver combination. 'keops' backend is not compatible with 'full' svd_solver.")
  else Ok tt.

(** [def fit(self): pass]. *)
Definition fit (self : BaseKoopmanEstimator) : result unit := Ok tt.

(** [def forecast(self): pass]. *)
Definition forecast (self : BaseKoopmanEstimator) : result unit := Ok tt.

End Base.

(** ** Complex arrays *)

Definition complex : Type := (float * float)%type.

Definition cvec := list complex.

Record carray : Type := mkcarr { cshape0 : nat; ccolumns : list cvec }.

Definition cshape1 (A : carray) : nat := List.length (ccolumns A).

Definition czero : complex := (0, 0)%float.
Definition of_real (x : float) : complex := (x, 0%float).
Definition cadd (a b : complex) : complex := (fst a + fst b, snd a + snd b)%float.
Definition cmul (a b : complex) : complex :=
  (fst a * fst b - snd a * snd b, fst a * snd b + snd a * fst b)%float.

Definition csum (l : list complex) : complex := fold_left cadd l czero.

Definition cvscale (a : complex) (v : cvec) : cvec := map (fun x => cmul x a) v.
Definition cvadd (u v : cvec) : cvec := map (fun p => cadd (fst p) (snd p)) (combine u v).

Definition carray_of (A : ndarray) : carray :=
  mkcarr (shape0 A) (map (map of_real) (columns A)).

(** [np.real]. *)
Definition real_part (A : carray) : ndarray :=
  mkarr (cshape0 A) (map (map fst) (ccolumns A)).

Definition cmatvec (A : carray) (v : cvec) : cvec :=
  fold_left (fun acc p => cvadd acc (cvscale (snd p) (fst p)))
            (combine (ccolumns A) v) (repeat czero (cshape0 A)).

Definition cmatmul (A B : carray) : carray :=
  mkcarr (cshape0 A) (map (cmatvec A) (ccolumns B)).

Definition cmscale (a : float) (A : carray) : carray :=
  mkcarr (cshape0 A) (map (cvscale (of_real a)) (ccolumns A)).

(** [l[idx]] for an integer index array: every index must be in range. *)
Fixpoint take {A} (l : list A) (idx : list nat) : result (list A) :=
  match idx with
  | [] => Ok []
  | i :: rest =>
      match nth_error l i, take l rest with
      | Some x, Ok xs => Ok (x :: xs)
      | None, _ => Raise (IndexError "index is out of bounds")
      | _, Raise e => Raise e
      end
  end.

(** [A[:, idx]] and [A[idx, :]]. *)
Definition take_columns (A : carray) (idx : list nat) : result carray :=
  match take (ccolumns A) idx with
  | Ok cs => Ok (mkcarr (cshape0 A) cs)
  | Raise e => Raise e
  end.

Fixpoint take_rows_of (cs : list cvec) (idx : list nat) : result (list cvec) :=
  match cs with
  | [] => Ok []
  | c :: rest =>
      match take c idx, take_rows_of rest idx with
      | Ok c', Ok rest' => Ok (c' :: rest')
      | Raise e, _ => Raise e
      | _, Raise e => Raise e
      end
  end.

Definition take_rows (A : carray) (idx : list nat) : result carray :=
  match take_rows_of (ccolumns A) idx with
  | Ok cs => Ok (mkcarr (List.length idx) cs)
  | Raise e => Raise e
  end.

(** ** Sorting indices: [np.argsort] *)

Definition is_nan (x : float) : bool := negb (x =? x)%float.

(** The order numpy sorts floats by: [a < b], with every NaN after every
    number. *)
Definition FLOAT_LT (a b : float) : bool :=
  (a <? b)%float || (is_nan b && negb (is_nan a)).

Definition key_of (keys : list float) (i : nat) : float := nth i keys 0%float.

Fixpoint insert_index (keys : list float) (i : nat) (sorted : list nat) : list nat :=
  match sorted with
  | [] => [i]
  | j :: rest =>
      if FLOAT_LT (key_of keys i) (key_of keys j)
      then i :: j :: rest
      else j :: insert_index keys i rest
  end.

(** [np.argsort(keys)]: the indices in ascending order of their keys.  Ties
    keep their index order here; numpy's default sort may break them
    differently. *)
Definition argsort (keys : list float) : list nat :=
  fold_left (fun sorted i => insert_index keys i sorted) (seq 0 (List.length keys)) [].

(** ** DynamicalSystems/utils.py: the test for a real array *)

Module UtilsReal.

(** [np.max] over all the entries of an array: it propagates a NaN and
    refuses an empty array. *)
Definition np_max (l : list float) : result float :=
  match l with
  | [] => Raise (ValueError "zero-size array to reduction operation maximum which has no identity")
  | x :: t => Ok (fold_left fmax t x)
  end.

(** The default of [eps], [1e-8]. *)
Definition default_eps : float := 0x1.5798ee2308c3ap-27%float.

(** [_check_real(V, eps=1e-8)]. *)
Definition _check_real (V : carray) (eps : float) : result bool :=
  match np_max (map (fun z => PrimFloat.abs (snd z)) (List.concat (ccolumns V))) with
  | Raise e => Raise e
  | Ok m => if (eps <? m)%float then Ok false else Ok true
  end.

End UtilsReal.

(** ** legacy_code/koopman_regression.py *)

Module Legacy.

Open Scope string_scope.

Inductive variety : Type :=
| KernelRidgeRegression
| TruncatedKernelRidgeRegression
| ReducedRankRegression
| PrincipalComponentRegression.

(** [isinstance(self, LowRankKoopmanRegression)]. *)
Definition is_low_rank (c : variety) : bool :=
  match c with
  | ReducedRankRegression | PrincipalComponentRegression => true
  | _ => false
  end.

Definition class_name (c : variety) : string :=
  match c with
  | KernelRidgeRegression => "KernelRidgeRegression"
  | TruncatedKernelRidgeRegression => "TruncatedKernelRidgeRegression"
  | ReducedRankRegression => "ReducedRankRegression"
  | PrincipalComponentRegression => "PrincipalComponentRegression"
  end.

(** [kernel(A, B, backend)]: the Gram matrix of two sample sets (one sample
    per row). *)
Definition kernel_fn : Type := ndarray -> ndarray -> string -> ndarray.

(** The lambdas [eig] stores in [_refuns] and [_lefuns]; each captures the
    local [sqrt_inv_dim] and reads [self] when it is called. *)
Inductive closure : Type :=
| dense_right (sqrt_inv_dim : float)
| dense_left (sqrt_inv_dim : float)
| operator_right (sqrt_inv_dim : float)
| operator_left (sqrt_inv_dim : float)
| truncated_right (sqrt_inv_dim : float).

(** An estimator object: its class and its instance dictionary.  [None]
    stands for an attribute that has not been assigned. *)
Record estimator : Type := mk_estimator {
  cls : variety;
  kernel : kernel_fn;
  rank : option Z;
  tikhonov_reg : option (option float);
  X : option ndarray;
  Y : option ndarray;
  backend : option string;
  K_X : option ndarray;
  K_Y : option ndarray;
  K_YX : option ndarray;
  dtype : option string;
  U : option ndarray;
  V : option ndarray;
  _evals : option (list complex);
  _levecs : option carray;
  _revecs : option carray;
  _modes_to_invert : option carray;
  _refuns : option closure;
  _lefuns : option closure;
  _modes : option carray
}.

Definition set_rank (v : Z) (s : estimator) : estimator :=
  mk_estimator (cls s) (kernel s) (Some v) (tikhonov_reg s) (X s) (Y s) (backend s) (K_X s) (K_Y s) (K_YX s) (dtype s) (U s) (V s) (_evals s) (_levecs s) (_revecs s) (_modes_to_invert s) (_refuns s) (_lefuns s) (_modes s).

Definition set_tikhonov_reg (v : (option float)) (s : estimator) : estimator :=
  mk_estimator (cls s) (kernel s) (rank s) (Some v) (X s) (Y s) (backend s) (K_X s) (K_Y s) (K_YX s) (dtype s) (U s) (V s) (_evals s) (_levecs s) (_revecs s) (_modes_to_invert s) (_refuns s) (_lefuns s) (_modes s).

Definition set_X (v : ndarray) (s : estimator) : estimator :=
  mk_estimator (cls s) (kernel s) (rank s) (tikhonov_reg s) (Some v) (Y s) (backend s) (K_X s) (K_Y s) (K_YX s) (dtype s) (U s) (V s) (_evals s) (_levecs s) (_revecs s) (_modes_to_invert s) (_refuns s) (_lefuns s) (_modes s).

Definition set_Y (v : ndarray) (s : estimator) : estimator :=
  mk_estimator (cls s) (kernel s) (rank s) (tikhonov_reg s) (X s) (Some v) (backend s) (K_X s) (K_Y s) (K_YX s) (dtype s) (U s) (V s) (_evals s) (_levecs s) (_revecs s) (_modes_to_invert s) (_refuns s) (_lefuns s) (_modes s).

Definition set_backend (v : string) (s : estimator) : estimator :=
  mk_estimator (cls s) (kernel s) (rank s) (tikhonov_reg s) (X s) (Y s) (Some v) (K_X s) (K_Y s) (K_YX s) (dtype s) (U s) (V s) (_evals s) (_levecs s) (_revecs s) (_modes_to_invert s) (_refuns s) (_lefuns s) (_modes s).

Definition set_K_X (v : ndarray) (s : estimator) : estimator :=
  mk_estimator (cls s) (kernel s) (rank s) (tikhonov_reg s) (X s) (Y s) (backend s) (Some v) (K_Y s) (K_YX s) (dtype s) (U s) (V s) (_evals s) (_levecs s) (_revecs s) (_modes_to_invert s) (_refuns s) (_lefuns s) (_modes s).

Definition set_K_Y (v : ndarray) (s : estimator) : estimator :=
  mk_estimator (cls s) (kernel s) (rank s) (tikhonov_reg s) (X s) (Y s) (backend s) (K_X s) (Some v) (K_YX s) (dtype s) (U s) (V s) (_evals s) (_levecs s) (_revecs s) (_modes_to_invert s) (_refuns s) (_lefuns s) (_modes s).

Definition set_K_YX (v : ndarray) (s : estimator) : estimator :=
  mk_estimator (cls s) (kernel s) (rank s) (tikhonov_reg s) (X s) (Y s) (backend s) (K_X s) (K_Y s) (Some v) (dtype s) (U s) (V s) (_evals s) (_levecs s) (_revecs s) (_modes_to_invert s) (_refuns s) (_lefuns s) (_modes s).

Definition set_dtype (v : string) (s : estimator) : estimator :=
  mk_estimator (cls s) (kernel s) (rank s) (tikhonov_reg s) (X s) (Y s) (backend s) (K_X s) (K_Y s) (K_YX s) (Some v) (U s) (V s) (_evals s) (_levecs s) (_revecs s) (_modes_to_invert s) (_refuns s) (_lefuns s) (_modes s).

Definition set_U (v : ndarray) (s : estimator) : estimator :=
  mk_estimator (cls s) (kernel s) (rank s) (tikhonov_reg s) (X s) (Y s) (backend s) (K_X s) (K_Y s) (K_YX s) (dtype s) (Some v) (V s) (_evals s) (_levecs s) (_revecs s) (_modes_to_invert s) (_refuns s) (_lefuns s) (_modes s).

Definition set_V (v : ndarray) (s : estimator) : estimator :=
  mk_estimator (cls s) (kernel s) (rank s) (tikhonov_reg s) (X s) (Y s) (backend s) (K_X s) (K_Y s) (K_YX s) (dtype s) (U s) (Some v) (_evals s) (_levecs s) (_revecs s) (_modes_to_invert s) (_refuns s) (_lefuns s) (_modes s).

Definition set__evals (v : (list complex)) (s : estimator) : estimator :=
  mk_estimator (cls s) (kernel s) (rank s) (tikhonov_reg s) (X s) (Y s) (backend s) (K_X s) (K_Y s) (K_YX s) (dtype s) (U s) (V s) (Some v) (_levecs s) (_revecs s) (_modes_to_invert s) (_refuns s) (_lefuns s) (_modes s).

Definition set__levecs (v : carray) (s : estimator) : estimator :=
  mk_estimator (cls s) (kernel s) (rank s) (tikhonov_reg s) (X s) (Y s) (backend s) (K_X s) (K_Y s) (K_YX s) (dtype s) (U s) (V s) (_evals s) (Some v) (_revecs s) (_modes_to_invert s) (_refuns s) (_lefuns s) (_modes s).

Definition set__revecs (v : carray) (s : estimator) : estimator :=
  mk_estimator (cls s) (kernel s) (rank s) (tikhonov_reg s) (X s) (Y s) (backend s) (K_X s) (K_Y s) (K_YX s) (dtype s) (U s) (V s) (_evals s) (_levecs s) (Some v) (_modes_to_invert s) (_refuns s) (_lefuns s) (_modes s).

Definition set__modes_to_invert (v : carray) (s : estimator) : estimator :=
  mk_estimator (cls s) (kernel s) (rank s) (tikhonov_reg s) (X s) (Y s) (backend s) (K_X s) (K_Y s) (K_YX s) (dtype s) (U s) (V s) (_evals s) (_levecs s) (_revecs s) (Some v) (_refuns s) (_lefuns s) (_modes s).

Definition set__refuns (v : closure) (s : estimator) : estimator :=
  mk_estimator (cls s) (kernel s) (rank s) (tikhonov_reg s) (X s) (Y s) (backend s) (K_X s) (K_Y s) (K_YX s) (dtype s) (U s) (V s) (_evals s) (_levecs s) (_revecs s) (_modes_to_invert s) (Some v) (_lefuns s) (_modes s).

Definition set__lefuns (v : closure) (s : estimator) : estimator :=
  mk_estimator (cls s) (kernel s) (rank s) (tikhonov_reg s) (X s) (Y s) (backend s) (K_X s) (K_Y s) (K_YX s) (dtype s) (U s) (V s) (_evals s) (_levecs s) (_revecs s) (_modes_to_invert s) (_refuns s) (Some v) (_modes s).

Definition set__modes (v : carray) (s : estimator) : estimator :=
  mk_estimator (cls s) (kernel s) (rank s) (tikhonov_reg s) (X s) (Y s) (backend s) (K_X s) (K_Y s) (K_YX s) (dtype s) (U s) (V s) (_evals s) (_levecs s) (_revecs s) (_modes_to_invert s) (_refuns s) (_lefuns s) (Some v).

(** The estimator a method runs on, and the terminal. *)
Record world : Type := mk_world { self : estimator; out : list event }.

Definition emit (e : event) (w : world) : world :=
  mk_world (self w) (log_event e (out w)).

(** [warnings.warn(msg)]. *)
Definition warn (msg : string) : M world unit := modify (emit (Warn msg)).

(** [self.name = v]. *)
Definition setattr (f : estimator -> estimator) : M world unit :=
  modify (fun w => mk_world (f (self w)) (out w)).

(** [self.name]: an [AttributeError] when the attribute was never assigned. *)
Definition getattr {A} (name : string) (proj : estimator -> option A) : M world A :=
  fun w => match proj (self w) with
           | Some a => (Ok a, w)
           | None => (Raise (AttributeError ("'" ++ class_name (cls (self w))
                                             ++ "' object has no attribute '" ++ name ++ "'")), w)
           end.

(** The keyword-only part of a time argument: a Python scalar, or an array
    (or nested sequence) with [ndim] dimensions and the given entries. *)
Inductive time_arg : Type :=
| t_scalar (t : float)
| t_array (ndim : nat) (data : list float).

(** What [observable(self.Y)] evaluates to. *)
Inductive obs_value : Type :=
| obs_1d (v : vec)
| obs_2d (a : ndarray).

(** The value of [forecast]: a single frame when there is at most one time
    point, else one frame per time point. *)
Inductive forecast_value : Type :=
| frame (a : ndarray)
| frames (l : list ndarray).

(** What [eig] returns: [(evals, lefuns, refuns)], without [lefuns] for the
    truncated estimator. *)
Record eig_value : Type := mk_eig {
  eig_evals : list complex;
  eig_lefuns : option closure;
  eig_refuns : closure
}.

(** Routines of numpy, scipy and the C library, and the one helper of the
    legacy [utils] module that the modelled methods call. *)
Record externals : Type := mk_externals {
  pow : float -> float -> float;
  c_abs : complex -> float;
  c_pow : complex -> float -> complex;
  pinv : ndarray -> result ndarray;
  eig_lr : ndarray -> option ndarray -> result (list complex * carray * carray);
  eigvals : ndarray -> option ndarray -> result (list complex);
  eigs_values : ndarray -> Z -> ndarray -> result (list complex);
  eigs_minv : ndarray -> Z -> ndarray -> ndarray -> float -> result (list complex * carray);
  eigsh : ndarray -> Z -> result (vec * ndarray);
  eigh : ndarray -> result (vec * ndarray);
  lstsq : carray -> ndarray -> result carray;
  weighted_norm : carray -> ndarray -> vec
}.

(** *** Constructors *)

Definition new_estimator (c : variety) (k : kernel_fn) (r : option Z)
  (reg : option (option float)) : estimator :=
  mk_estimator c k r reg None None None None None None None None None
               None None None None None None None.

(** What may be passed as [tikhonov_reg]. *)
Inductive reg_arg : Type :=
| reg_none
| reg_scalar (x : float)
| reg_array (v : vec).

(** [KernelRidgeRegression(kernel, tikhonov_reg=None)]. *)
Definition KernelRidgeRegression_init (k : kernel_fn) (reg : option float) : estimator :=
  new_estimator KernelRidgeRegression k None (Some reg).

(** [TruncatedKernelRidgeRegression(kernel, rank, tikhonov_reg)]. *)
Definition TruncatedKernelRidgeRegression_init (k : kernel_fn) (r : Z) (reg : reg_arg)
  : result estimator :=
  match reg with
  | reg_scalar x => Ok (new_estimator TruncatedKernelRidgeRegression k (Some r) (Some (Some x)))
  | _ => Raise (AssertionError "Numerical value expected")
  end.

(** [ReducedRankRegression(kernel, rank, tikhonov_reg=None)]. *)
Definition ReducedRankRegression_init (k : kernel_fn) (r : Z) (reg : option float) : estimator :=
  new_estimator ReducedRankRegression k (Some r) (Some reg).

(** [PrincipalComponentRegression(kernel, rank)]. *)
Definition PrincipalComponentRegression_init (k : kernel_fn) (r : Z) : estimator :=
  new_estimator PrincipalComponentRegression k (Some r) None.

Section Methods.

Variable E : externals.

(** [self.kernel(A, B, backend=b)]; each evaluation is recorded. *)
Definition call_kernel (A B : ndarray) (b : string) : M world ndarray :=
  fun w => (Ok (kernel (self w) A B b), emit (KernelEval b) w).

(** [n ** e] for a Python int [n] and a negative exponent. *)
Definition int_pow (n : nat) (e : float) : result float :=
  if Nat.eqb n 0 then Raise ZeroDivisionError else Ok (pow E (float_of_nat n) e).

(** [KoopmanRegression._init_kernels(X, Y, backend)].  A Gram matrix and the
    linear operator wrapping it on the [keops] backend are the same array
    here. *)
Definition _init_kernels (X0 Y0 : ndarray) (backend0 : string) : M world unit :=
  (setattr (set_X X0) ;;;
   setattr (set_Y Y0) ;;;
   b <- lift_result (Utils.parse_backend backend0 X0) ;;
   setattr (set_backend b) ;;;
   x <- getattr "X" X ;;
   b <- getattr "backend" backend ;;
   kx <- call_kernel x x b ;;
   setattr (set_K_X kx) ;;;
   y <- getattr "Y" Y ;;
   b <- getattr "backend" backend ;;
   ky <- call_kernel y y b ;;
   setattr (set_K_Y ky) ;;;
   y <- getattr "Y" Y ;;
   x <- getattr "X" X ;;
   b <- getattr "backend" backend ;;
   kyx <- call_kernel y x b ;;
   setattr (set_K_YX kyx) ;;;
   getattr "K_X" K_X ;;;
   setattr (set_dtype "float64"))%py.

(** [KernelRidgeRegression.fit(X, Y, backend='cpu')]. *)
Definition KernelRidgeRegression_fit (X0 Y0 : ndarray) (backend0 : string) : M world unit :=
  ((if negb (backend0 =? "cpu")
    then warn "Keops backend not implemented for KernelRidgeRegression. Use TruncatedKernelRidgeRegression instead. Forcing 'cpu' backend. "
    else ret tt) ;;;
   _init_kernels X0 Y0 "cpu")%py.

(** [TruncatedKernelRidgeRegression.fit(X, Y, backend='auto')]. *)
Definition TruncatedKernelRidgeRegression_fit (X0 Y0 : ndarray) (backend0 : string)
  : M world unit :=
  ((if negb (backend0 =? "keops")
    then warn "CPU backend not implemented for TruncatedKernelRidgeRegression. Use KernelRidgeRegression instead. Forcing 'keops' backend. "
    else ret tt) ;;;
   _init_kernels X0 Y0 "keops")%py.

(** [TruncatedKernelRidgeRegression.risk]. *)
Definition TruncatedKernelRidgeRegression_risk : M world float :=
  raise (NotImplementedError "Risk evaluation not implemented for TruncatedKernelRidgeRegression").

(** [np.eye(dim, dtype=self.dtype)*(self.tikhonov_reg*dim)]. *)
Definition tikhonov_matrix (dim : nat) (reg : float) : ndarray :=
  mscale (reg * float_of_nat dim)%float (eye dim).

(** [raise AttributeError("You must first fit the model.")]. *)
Definition not_fitted {A} : M world A :=
  raise (AttributeError "You must first fit the model.").

(** [KernelRidgeRegression.eigvals(k=None)].  [K_reg += tikhonov] writes
    through the alias [K_reg = self.K_X]. *)
Definition KernelRidgeRegression_eigvals (k : option Z) : M world (list complex) :=
  except_AttributeError
    (kx <- getattr "K_X" K_X ;;
     let dim := shape0 kx in
     dim_inv <- lift_result (int_pow dim (-1)) ;;
     reg <- getattr "tikhonov_reg" tikhonov_reg ;;
     match reg with
     | Some r =>
         getattr "dtype" dtype ;;;
         setattr (set_K_X (madd kx (tikhonov_matrix dim r)))
     | None => ret tt
     end ;;;
     K_reg <- getattr "K_X" K_X ;;
     kyx <- getattr "K_YX" K_YX ;;
     match k with
     | None => lift_result (eigvals E kyx (Some K_reg))
     | Some k' => lift_result (eigs_values E kyx k' K_reg)
     end)%py
    not_fitted.

(** [idx_ = np.argsort(np.abs(evals))[::-1]]. *)
Definition by_descending_modulus (evals : list complex) : list nat :=
  rev (argsort (map (c_abs E) evals)).

(** [A @ np.diag(d ** (-0.5))] for a complex [A] and a real [d]. *)
Definition normalize_columns (A : carray) (d : vec) : carray :=
  cmatmul A (carray_of (diag_mat (map (fun x => pow E x (-0.5)%float) d))).

(** The statements of the [eig] methods that sort [self._evals] and the
    eigenvector attributes by descending modulus; [with_left] is false for
    the truncated estimator, which has no [_levecs]. *)
Definition sort_spectrum (with_left : bool) : M world (list nat) :=
  (evals <- getattr "_evals" _evals ;;
   let idx_ := by_descending_modulus evals in
   evals <- getattr "_evals" _evals ;;
   sorted <- lift_result (take evals idx_) ;;
   setattr (set__evals sorted) ;;;
   (if with_left then
      lv <- getattr "_levecs" _levecs ;;
      lv' <- lift_result (take_columns lv idx_) ;;
      rv <- getattr "_revecs" _revecs ;;
      rv' <- lift_result (take_columns rv idx_) ;;
      setattr (set__levecs lv') ;;;
      setattr (set__revecs rv')
    else
      rv <- getattr "_revecs" _revecs ;;
      rv' <- lift_result (take_columns rv idx_) ;;
      setattr (set__revecs rv')) ;;;
   ret idx_)%py.

(** [self._evals, self._levecs, self._revecs = eig(...)]. *)
Definition store_eig (r : result (list complex * carray * carray)) : M world unit :=
  (t <- lift_result r ;;
   setattr (set__evals (fst (fst t))) ;;;
   setattr (set__levecs (snd (fst t))) ;;;
   setattr (set__revecs (snd t)))%py.

(** [weighted_norm(self._revecs, self.K_X)*dim_inv] and its left counterpart. *)
Definition norm_right (dim_inv : float) : M world vec :=
  (rv <- getattr "_revecs" _revecs ;;
   kx <- getattr "K_X" K_X ;;
   ret (vscale dim_inv (weighted_norm E rv kx)))%py.

Definition norm_left (dim_inv : float) : M world vec :=
  (lv <- getattr "_levecs" _levecs ;;
   ky <- getattr "K_Y" K_Y ;;
   ret (vscale dim_inv (weighted_norm E lv ky)))%py.

(** [return self._evals, self._lefuns, self._refuns]. *)
Definition return_spectrum (with_left : bool) : M world eig_value :=
  (evals <- getattr "_evals" _evals ;;
   if with_left then
     lf <- getattr "_lefuns" _lefuns ;;
     rf <- getattr "_refuns" _refuns ;;
     ret (mk_eig evals (Some lf) rf)
   else
     rf <- getattr "_refuns" _refuns ;;
     ret (mk_eig evals None rf))%py.

(** [KernelRidgeRegression.eig()]. *)
Definition KernelRidgeRegression_eig : M world eig_value :=
  except_AttributeError
    (kx <- getattr "K_X" K_X ;;
     let dim := shape0 kx in
     dim_inv <- lift_result (int_pow dim (-1)) ;;
     let sqrt_inv_dim := pow E dim_inv 0.5%float in
     reg <- getattr "tikhonov_reg" tikhonov_reg ;;
     match reg with
     | Some r =>
         getattr "dtype" dtype ;;;
         let tikhonov := tikhonov_matrix dim r in
         kx <- getattr "K_X" K_X ;;
         let K_reg := madd kx tikhonov in
         kyx <- getattr "K_YX" K_YX ;;
         store_eig (eig_lr E kyx (Some K_reg))
     | None =>
         kx <- getattr "K_X" K_X ;;
         p <- lift_result (pinv E kx) ;;
         kyx <- getattr "K_YX" K_YX ;;
         store_eig (eig_lr E (matmul p kyx) None)
     end ;;;
     sort_spectrum true ;;;
     norm_r <- norm_right dim_inv ;;
     norm_l <- norm_left dim_inv ;;
     rv <- getattr "_revecs" _revecs ;;
     setattr (set__revecs (normalize_columns rv norm_r)) ;;;
     lv <- getattr "_levecs" _levecs ;;
     setattr (set__levecs (normalize_columns lv norm_l)) ;;;
     kyx <- getattr "K_YX" K_YX ;;
     rv <- getattr "_revecs" _revecs ;;
     setattr (set__modes_to_invert (cmscale dim_inv (cmatmul (carray_of kyx) rv))) ;;;
     setattr (set__refuns (dense_right sqrt_inv_dim)) ;;;
     setattr (set__lefuns (dense_left sqrt_inv_dim)) ;;;
     return_spectrum true)%py
    not_fitted.

(** [TruncatedKernelRidgeRegression.eig()]. *)
Definition TruncatedKernelRidgeRegression_eig : M world eig_value :=
  (warn "Left eigenfunctions are not evaluated in TruncatedKernelRidgeRegression. If needed, use KernelRidgeRegression instead." ;;;
   except_AttributeError
     (kx <- getattr "K_X" K_X ;;
      let dim := shape0 kx in
      dim_inv <- lift_result (int_pow dim (-1)) ;;
      let sqrt_inv_dim := pow E dim_inv 0.5%float in
      getattr "dtype" dtype ;;;
      reg <- getattr "tikhonov_reg" tikhonov_reg ;;
      reg <- match reg with
             | Some x => ret x
             | None => raise (TypeError "unsupported operand type(s) for *: 'float' and 'NoneType'")
             end ;;
      let tikhonov :=
        diag_mat (map (fun one => (one * reg * float_of_nat dim)%float) (repeat 1%float dim)) in
      x <- getattr "X" X ;;
      getattr "tikhonov_reg" tikhonov_reg ;;;
      minv <- call_kernel x x "keops" ;;
      kyx <- getattr "K_YX" K_YX ;;
      r <- getattr "rank" rank ;;
      kx <- getattr "K_X" K_X ;;
      er <- lift_result (eigs_minv E kyx r (madd kx tikhonov) minv (reg * float_of_nat dim)%float) ;;
      setattr (set__evals (fst er)) ;;;
      setattr (set__revecs (snd er)) ;;;
      sort_spectrum false ;;;
      norm_r <- norm_right dim_inv ;;
      rv <- getattr "_revecs" _revecs ;;
      setattr (set__revecs (normalize_columns rv norm_r)) ;;;
      kyx <- getattr "K_YX" K_YX ;;
      rv <- getattr "_revecs" _revecs ;;
      setattr (set__modes_to_invert (cmscale dim_inv (cmatmul (carray_of kyx) rv))) ;;;
      b <- getattr "backend" backend ;;
      (if b =? "keops" then setattr (set__refuns (truncated_right sqrt_inv_dim)) else ret tt) ;;;
      return_spectrum false)
     not_fitted)%py.

(** [C] of the low-rank methods: [dim_inv * K_YX.matmat(U)] on the operator
    backend, [dim_inv * K_YX @ U] on the dense one. *)
Definition projected (dim_inv : float) : M world ndarray :=
  (b <- getattr "backend" backend ;;
   if b =? "keops" then
     kyx <- getattr "K_YX" K_YX ;;
     u <- getattr "U" U ;;
     ret (mscale dim_inv (matmul kyx u))
   else
     kyx <- getattr "K_YX" K_YX ;;
     u <- getattr "U" U ;;
     ret (matmul (mscale dim_inv kyx) u))%py.

(** [LowRankKoopmanRegression.eigvals(k=None)]. *)
Definition LowRankKoopmanRegression_eigvals (k : option Z) : M world (list complex) :=
  except_AttributeError
    (kx <- getattr "K_X" K_X ;;
     dim_inv <- lift_result (int_pow (shape0 kx) (-1)) ;;
     C <- projected dim_inv ;;
     v <- getattr "V" V ;;
     lift_result (eigvals E (matmul (transpose v) C) None))%py
    not_fitted.

(** [LowRankKoopmanRegression.eig()]. *)
Definition LowRankKoopmanRegression_eig : M world eig_value :=
  except_AttributeError
    (kx <- getattr "K_X" K_X ;;
     dim_inv <- lift_result (int_pow (shape0 kx) (-1)) ;;
     let sqrt_inv_dim := pow E dim_inv 0.5%float in
     C <- projected dim_inv ;;
     v <- getattr "V" V ;;
     t <- lift_result (eig_lr E (matmul (transpose v) C) None) ;;
     let lv := snd (fst t) in
     let rv := snd t in
     setattr (set__evals (fst (fst t))) ;;;
     v <- getattr "V" V ;;
     setattr (set__levecs (cmatmul (carray_of v) lv)) ;;;
     u <- getattr "U" U ;;
     setattr (set__revecs (cmatmul (carray_of u) rv)) ;;;
     idx_ <- sort_spectrum true ;;
     rv <- lift_result (take_columns rv idx_) ;;
     norm_r <- norm_right dim_inv ;;
     norm_l <- norm_left dim_inv ;;
     rvecs <- getattr "_revecs" _revecs ;;
     setattr (set__revecs (normalize_columns rvecs norm_r)) ;;;
     lvecs <- getattr "_levecs" _levecs ;;
     setattr (set__levecs (normalize_columns lvecs norm_l)) ;;;
     evals <- getattr "_evals" _evals ;;
     let d := map (fun p => cmul (fst p) (of_real (pow E (snd p) (-0.5)%float)))
                  (combine evals norm_r) in
     let n := List.length d in
     let D := mkcarr n (map (fun jd => map (fun i => if Nat.eqb i (fst jd) then snd jd else czero)
                                           (seq 0 n))
                            (combine (seq 0 n) d)) in
     setattr (set__modes_to_invert (cmatmul rv D)) ;;;
     b <- getattr "backend" backend ;;
     (if b =? "keops" then
        setattr (set__refuns (operator_right sqrt_inv_dim)) ;;;
        setattr (set__lefuns (operator_left sqrt_inv_dim))
      else
        setattr (set__refuns (dense_right sqrt_inv_dim)) ;;;
        setattr (set__lefuns (dense_left sqrt_inv_dim))) ;;;
     return_spectrum true)%py
    not_fitted.

(** [eig()] as the interpreter dispatches it on the class of [self]; the
    call itself is recorded. *)
Definition eig : M world eig_value :=
  (modify (emit (Call "eig")) ;;;
   w <- get ;;
   match cls (self w) with
   | KernelRidgeRegression => KernelRidgeRegression_eig
   | TruncatedKernelRidgeRegression => TruncatedKernelRidgeRegression_eig
   | ReducedRankRegression | PrincipalComponentRegression => LowRankKoopmanRegression_eig
   end)%py.

(** The [try] block of [KoopmanRegression.modes(observable)]. *)
Definition modes_body (observable : ndarray -> obs_value) : M world carray :=
  (kx <- getattr "K_X" K_X ;;
   inv_sqrt_dim <- lift_result (int_pow (shape0 kx) (-0.5)) ;;
   y <- getattr "Y" Y ;;
   let evaluated_observable :=
     match observable y with
     | obs_1d v => mkarr (List.length v) [v]
     | obs_2d a => a
     end in
   w <- get ;;
   evaluated_observable <-
     (if is_low_rank (cls (self w))
      then v <- getattr "V" V ;; ret (matmul (transpose v) evaluated_observable)
      else ret evaluated_observable) ;;
   mti <- getattr "_modes_to_invert" _modes_to_invert ;;
   x <- lift_result (lstsq E mti evaluated_observable) ;;
   setattr (set__modes x) ;;;
   m <- getattr "_modes" _modes ;;
   setattr (set__modes (cmscale inv_sqrt_dim m)) ;;;
   getattr "_modes" _modes)%py.

(** [KoopmanRegression.modes(observable)].  [fuel] bounds the depth of the
    recursion, as the interpreter's recursion limit does; each entry is
    recorded. *)
Fixpoint modes (fuel : nat) (observable : ndarray -> obs_value) : M world carray :=
  match fuel with
  | O => raise RecursionError
  | S fuel' =>
      (modify (emit (Call "modes")) ;;;
       except_AttributeError
         (modes_body observable)
         (except_AttributeError
            (eig ;;; modes fuel' observable)
            not_fitted))%py
  end.

(** Calling a stored eigenfunction evaluator on new states. *)
Definition call_closure (f : closure) (X0 : ndarray) : M world carray :=
  match f with
  | dense_right c =>
      (x <- getattr "X" X ;;
       b <- getattr "backend" backend ;;
       k <- call_kernel X0 x b ;;
       rv <- getattr "_revecs" _revecs ;;
       ret (cmatmul (carray_of (mscale c k)) rv))%py
  | dense_left c =>
      (y <- getattr "Y" Y ;;
       b <- getattr "backend" backend ;;
       k <- call_kernel X0 y b ;;
       lv <- getattr "_levecs" _levecs ;;
       ret (cmatmul (carray_of (mscale c k)) lv))%py
  | operator_right c =>
      (x <- getattr "X" X ;;
       b <- getattr "backend" backend ;;
       k <- call_kernel X0 x b ;;
       rv <- getattr "_revecs" _revecs ;;
       ret (cmscale c (cmatmul (carray_of k) rv)))%py
  | operator_left c =>
      (y <- getattr "Y" Y ;;
       b <- getattr "backend" backend ;;
       k <- call_kernel X0 y b ;;
       lv <- getattr "_levecs" _levecs ;;
       ret (cmscale c (cmatmul (carray_of k) lv)))%py
  | truncated_right c =>
      (kx <- getattr "K_X" K_X ;;
       rv <- getattr "_revecs" _revecs ;;
       ret (cmscale c (cmatmul (carray_of kx) rv)))%py
  end.

(** [np.einsum('ro,rt,nr->tno', modes, evals_t, refuns)]: one [n] by [o]
    frame per time index. *)
Definition einsum_frame (modes_ : carray) (evals_at : cvec) (refuns : carray) : carray :=
  mkcarr (cshape0 refuns)
         (map (fun mode_col =>
                 fold_left (fun acc p => cvadd acc (cvscale (cmul (fst (fst p)) (snd (fst p))) (snd p)))
                           (combine (combine mode_col evals_at) (ccolumns refuns))
                           (repeat czero (cshape0 refuns)))
              (ccolumns modes_)).

Definition einsum (modes_ : carray) (evals_t : list cvec) (refuns : carray) (nt : nat)
  : list carray :=
  map (fun ti => einsum_frame modes_ (map (fun row => nth ti row czero) evals_t) refuns)
      (seq 0 nt).

(** The three [if] branches of [forecast] that turn [t] into a row of
    times. *)
Definition time_row (t : time_arg) : result (list float) :=
  match t with
  | t_scalar x => Ok [x]
  | t_array ndim data =>
      if Nat.eqb ndim 1 then Ok data
      else Raise (ValueError "t must be a scalar or a vector.")
  end.

(** The first [if] of [forecast]: the eigenvalues, the right eigenfunctions
    evaluated on [X] and the modes, all three restricted to [which] when it
    is given. *)
Definition select_spectrum (X0 : ndarray) (which : option (list nat))
  : M world (list complex * carray * carray) :=
  match which with
  | Some w =>
      (ev <- getattr "_evals" _evals ;;
       evals <- lift_result (take ev w) ;;
       f <- getattr "_refuns" _refuns ;;
       r <- call_closure f X0 ;;
       refuns <- lift_result (take_columns r w) ;;
       m <- getattr "_modes" _modes ;;
       modes_ <- lift_result (take_rows m w) ;;
       ret (evals, refuns, modes_))%py
  | None =>
      (evals <- getattr "_evals" _evals ;;
       f <- getattr "_refuns" _refuns ;;
       refuns <- call_closure f X0 ;;
       modes_ <- getattr "_modes" _modes ;;
       ret (evals, refuns, modes_))%py
  end.

(** The statements of [forecast] after the times are a row: the powers of
    the eigenvalues, the contraction and the real part. *)
Definition evolve (sel : list complex * carray * carray) (t : list float)
  : M world forecast_value :=
  let evals := fst (fst sel) in
  let refuns := snd (fst sel) in
  let modes_ := snd sel in
  let evals_t := map (fun e => map (c_pow E e) t) evals in
  let forecasted := einsum modes_ evals_t refuns (List.length t) in
  if (List.length forecasted <=? 1)%nat then
    match forecasted with
    | [] => raise (IndexError "index 0 is out of bounds for axis 0 with size 0")
    | f0 :: _ => ret (frame (real_part f0))
    end
  else ret (frames (map real_part forecasted)).

(** [KoopmanRegression.forecast(X, t=1., which=None)]. *)
Definition forecast (X0 : ndarray) (t : time_arg) (which : option (list nat))
  : M world forecast_value :=
  except_AttributeError
    (sel <- select_spectrum X0 which ;;
     t <- lift_result (time_row t) ;;
     evolve sel t)%py
    (raise (AttributeError "You must first fit the model and evaluate the modes with the 'self.modes' method.")).

(** The threshold of the principal-component rank test, [2.2e-16]. *)
Definition svd_tol : float := 0x1.fb49140a1644fp-53%float.

(** [V[:_test]] where [_test] is a boolean array: numpy refuses an array as
    the bound of a slice. *)
Definition slice_rows_to_mask (V0 : ndarray) (_test : list bool) : result ndarray :=
  Raise (TypeError "only integer scalar arrays can be converted to a scalar index").

(** [S[:_test]], refused for the same reason. *)
Definition slice_to_mask (S0 : vec) (_test : list bool) : result vec :=
  Raise (TypeError "only integer scalar arrays can be converted to a scalar index").

(** [V @ np.diag(S**-1) * np.sqrt(dim)]. *)
Definition rescaled (V0 : ndarray) (S0 : vec) (dim : nat) : ndarray :=
  mscale (PrimFloat.sqrt (float_of_nat dim))
         (matmul V0 (diag_mat (map (fun x => (1 / x)%float) S0))).

(** [PrincipalComponentRegression.fit(X, Y, backend='auto')]. *)
Definition PrincipalComponentRegression_fit (X0 Y0 : ndarray) (backend0 : string)
  : M world unit :=
  (_init_kernels X0 Y0 backend0 ;;;
   kx <- getattr "K_X" K_X ;;
   let dim := shape0 kx in
   K <- getattr "K_X" K_X ;;
   b <- getattr "backend" backend ;;
   sv <- (if b =? "keops" then
            r <- getattr "rank" rank ;;
            sv <- lift_result (eigsh E K r) ;;
            let S0 := fst sv in
            let V0 := snd sv in
            let sigma_sq := map (fun x => (x * x)%float) S0 in
            let sort_perm := rev (argsort sigma_sq) in
            cols <- lift_result (take (columns V0) sort_perm) ;;
            S1 <- lift_result (take S0 sort_perm) ;;
            ret (S1, mkarr (shape0 V0) cols)
          else
            sv <- lift_result (eigh E K) ;;
            let S0 := fst sv in
            let V0 := snd sv in
            let sigma_sq := map (fun x => (x * x)%float) S0 in
            let sort_perm := rev (argsort sigma_sq) in
            r <- getattr "rank" rank ;;
            let S1 := slice_to r (rev S0) in
            r <- getattr "rank" rank ;;
            ret (S1, mkarr (shape0 V0) (slice_to r (rev (columns V0))))) ;;
   let S0 := fst sv in
   let V0 := snd sv in
   let _test := map (fun x => (svd_tol <? x)%float) S0 in
   if forallb (fun b => b) _test then
     setattr (set_V (mscale (PrimFloat.sqrt (float_of_nat dim)) V0)) ;;;
     setattr (set_U (rescaled V0 S0 dim))
   else
     V1 <- lift_result (slice_rows_to_mask V0 _test) ;;
     setattr (set_V (mscale (PrimFloat.sqrt (float_of_nat dim)) V1)) ;;;
     V2 <- lift_result (slice_rows_to_mask V0 _test) ;;
     S2 <- lift_result (slice_to_mask S0 _test) ;;
     setattr (set_U (rescaled V2 S2 dim)) ;;;
     getattr "rank" rank ;;;
     getattr "V" V ;;;
     warn "Chosen rank is to high. Reducing rank." ;;;
     v <- getattr "V" V ;;
     setattr (set_rank (Z.of_nat (shape1 v))))%py.

(** *** Prediction *)

(** What [predict] may be given: one state (a one-dimensional array) or one
    state per row. *)
Inductive states_arg : Type :=
| one_state (x : vec)
| many_states (a : ndarray).

(** [if X.ndim == 1: X = X[None,:]]. *)
Definition as_rows (X0 : states_arg) : ndarray :=
  match X0 with
  | one_state x => mkarr 1 (map (fun c => [c]) x)
  | many_states a => a
  end.

(** [scipy.linalg.solve(a, b, assume_a='pos')]. *)
Variable solve : ndarray -> ndarray -> result ndarray.

(** [KernelRidgeRegression.predict(X)].  Without a regularization the method
    calls [lstsq] with the single argument [self.K_X]; scipy's [lstsq] has two
    required arguments. *)
Definition KernelRidgeRegression_predict (X0 : states_arg) : M world ndarray :=
  except_AttributeError
    (x <- getattr "X" X ;;
     let dim := shape0 x in
     reg <- getattr "tikhonov_reg" tikhonov_reg ;;
     _Z <- match reg with
           | Some r =>
               getattr "dtype" dtype ;;;
               let tikhonov := tikhonov_matrix dim r in
               kx <- getattr "K_X" K_X ;;
               y <- getattr "Y" Y ;;
               lift_result (solve (madd kx tikhonov) y)
           | None =>
               getattr "K_X" K_X ;;;
               raise (TypeError "lstsq() missing 1 required positional argument: 'b'")
           end ;;
     let X1 := as_rows X0 in
     x <- getattr "X" X ;;
     b <- getattr "backend" backend ;;
     _S <- call_kernel X1 x b ;;
     ret (matmul _S _Z))%py
    not_fitted.

(** [LowRankKoopmanRegression.predict(X)]. *)
Definition LowRankKoopmanRegression_predict (X0 : states_arg) : M world ndarray :=
  except_AttributeError
    (kx <- getattr "K_X" K_X ;;
     sqrt_dim_inv <- lift_result (int_pow (shape0 kx) (-0.5)) ;;
     v <- getattr "V" V ;;
     y <- getattr "Y" Y ;;
     let _Z := matmul (mscale sqrt_dim_inv (transpose v)) y in
     let X1 := as_rows X0 in
     x <- getattr "X" X ;;
     b <- getattr "backend" backend ;;
     _init_K <- call_kernel X1 x b ;;
     b <- getattr "backend" backend ;;
     _S <- (if b =? "keops" then
              u <- getattr "U" U ;;
              ret (mscale sqrt_dim_inv (matmul _init_K u))
            else
              u <- getattr "U" U ;;
              ret (matmul (mscale sqrt_dim_inv _init_K) u)) ;;
     ret (matmul _S _Z))%py
    not_fitted.

(** *** The spectral error *)

(** [np.linalg.norm] of a complex array, with [ord='fro'] and along an
    axis. *)
Variable norm_fro : carray -> float.
Variable norm_axis : carray -> Z -> result vec.

Definition cconj (z : complex) : complex := (fst z, (- snd z)%float).
Definition csub (a b : complex) : complex := (fst a - fst b, snd a - snd b)%float.

(** [np.diag(d)] for a one-dimensional complex [d]. *)
Definition cdiag (d : cvec) : carray :=
  let n := List.length d in
  mkcarr n (map (fun jd => map (fun i => if Nat.eqb i (fst jd) then snd jd else czero)
                               (seq 0 n))
                (combine (seq 0 n) d)).

(** [A - B] under numpy's broadcasting: along each axis the two lengths are
    equal or one of them is 1. *)
Definition broadcast_dim (a b : nat) : option nat :=
  if Nat.eqb a b then Some a
  else if Nat.eqb a 1 then Some b
  else if Nat.eqb b 1 then Some a
  else None.

Definition centry (A : carray) (i j : nat) : complex :=
  nth (if Nat.eqb (cshape0 A) 1 then 0 else i)
      (nth (if Nat.eqb (cshape1 A) 1 then 0 else j) (ccolumns A) []) czero.

Definition cmsub (A B : carray) : result carray :=
  match broadcast_dim (cshape0 A) (cshape0 B), broadcast_dim (cshape1 A) (cshape1 B) with
  | Some n, Some m =>
      Ok (mkcarr n (map (fun j => map (fun i => csub (centry A i j) (centry B i j)) (seq 0 n))
                        (seq 0 m)))
  | _, _ => Raise (ValueError "operands could not be broadcast together")
  end.

(** What [spectral_error] returns: a number when [axis] is [None], else the
    norms along [axis]. *)
Inductive error_value : Type :=
| error_total (x : float)
| error_along (v : vec).

(** [KoopmanRegression.spectral_error(X=None, Y=None, left=False, axis=None)]. *)
Definition spectral_error (X0 Y0 : option ndarray) (left : bool) (axis : option Z)
  : M world error_value :=
  except_AttributeError
    (xy <- match X0, Y0 with
           | Some x, Some y => ret (x, y)
           | _, _ => x <- getattr "X" X ;; y <- getattr "Y" Y ;; ret (x, y)
           end ;;
     let X1 := fst xy in
     let Y1 := snd xy in
     error <- (if left then
                 f <- getattr "_lefuns" _lefuns ;;
                 a <- call_closure f X1 ;;
                 f <- getattr "_lefuns" _lefuns ;;
                 b <- call_closure f Y1 ;;
                 evals <- getattr "_evals" _evals ;;
                 lift_result (cmsub a (cmatmul b (cdiag (map cconj evals))))
               else
                 f <- getattr "_refuns" _refuns ;;
                 a <- call_closure f Y1 ;;
                 f <- getattr "_refuns" _refuns ;;
                 b <- call_closure f X1 ;;
                 evals <- getattr "_evals" _evals ;;
                 lift_result (cmsub a (cmatmul b (cdiag evals)))) ;;
     match axis with
     | None =>
         let nrm := norm_fro error in
         evals <- getattr "_evals" _evals ;;
         ret (error_total
                (nrm / PrimFloat.sqrt (float_of_nat (shape0 X1 * List.length evals)))%float)
     | Some ax =>
         nrm <- lift_result (norm_axis error ax) ;;
         evals <- getattr "_evals" _evals ;;
         ret (error_along
                (vdiv nrm (PrimFloat.sqrt (float_of_nat (shape0 X1 * List.length evals)))))
     end)%py
    (raise (AttributeError "You must first fit the model and evaluate the modes with the 'self.eig' method.")).

End Methods.

(** *** Reading a log and a spectrum *)



Definition is_kernel_eval (e : event) : bool :=
  match e with KernelEval _ => true | _ => false end.

(** How many Gram matrices were computed, according to a log. *)
Definition kernel_evals (log : list event) : nat :=
  List.length (filter is_kernel_eval log).

Definition kernels (w : world) : nat := kernel_evals (out w).
Definition stored_evals (w : world) : option (list complex) := _evals (self w).
Definition stored_rank (w : world) : option Z := rank (self w).

(** The attributes of an estimator by who writes them: the constructor, the
    Gram-matrix part of [fit], the low-rank part of [fit], and [eig] and
    [modes]. *)
Definition hyperparameters (s : estimator) : variety * option Z * option (option float) :=
  (cls s, rank s, tikhonov_reg s).

Definition fitted_data (s : estimator)
  : option ndarray * option ndarray * option string
    * option ndarray * option ndarray * option ndarray * option string :=
  (X s, Y s, backend s, K_X s, K_Y s, K_YX s, dtype s).

Definition factors (s : estimator) : option ndarray * option ndarray := (U s, V s).

Definition spectral_data (s : estimator)
  : option (list complex) * option carray * option carray * option carray
    * option closure * option closure * option carray :=
  (_evals s, _levecs s, _revecs s, _modes_to_invert s, _refuns s, _lefuns s, _modes s).

(** [keeps mu m]: whatever [m] does, it leaves the observation [mu] of the
    world as it found it; [keeps_ok mu m] asks this only of the runs that
    return normally. *)
Definition keeps {T A} (mu : world -> T) (m : M world A) : Prop :=
  forall w, mu (snd (m w)) = mu w.

Definition keeps_ok {T A} (mu : world -> T) (m : M world A) : Prop :=
  forall w a w', m w = (Ok a, w') -> mu w' = mu w.

(** [hoare P m Q]: from a world satisfying [P], a normal return of [m]
    satisfies [Q]. *)
Definition hoare {A} (P : world -> Prop) (m : M world A) (Q : A -> world -> Prop) : Prop :=
  forall w, P w -> match m w with
                   | (Ok a, w') => Q a w'
                   | (Raise _, _) => True
                   end.

(** [sorted_spectrum E l]: [l] is some eigenvalue array indexed by the
    reversed argsort of its moduli. *)
Definition sorted_spectrum (E : externals) (l : list complex) : Prop :=
  exists evals, take evals (by_descending_modulus E evals) = Ok l.

End Legacy.

(** The sequence is sorted in descending order: for all [i < j], the entry
    at [j] is at most the entry at [i]. *)
Definition descending (keys : list float) : Prop :=
  forall i j, i < j < List.length keys ->
              (nth j keys 0%float <=? nth i keys 0%float)%float = true.

(** The position of a float in the order [FLOAT_LT] sorts by: the class
    (negative infinity, negative, zero, positive, positive infinity, NaN),
    then exponent and mantissa, negated for negative numbers. *)
Definition fkey (x : float) : Z * Z * Z :=
  match Prim2SF x with
  | S754_nan => (3, 0, 0)
  | S754_infinity true => (-2, 0, 0)
  | S754_infinity false => (2, 0, 0)
  | S754_zero _ => (0, 0, 0)
  | S754_finite true m e => (-1, - e, - Zpos m)
  | S754_finite false m e => (1, e, Zpos m)
  end%Z.

Definition lex_lt (a b : Z * Z * Z) : Prop :=
  (fst (fst a) < fst (fst b)
   \/ (fst (fst a) = fst (fst b)
       /\ (snd (fst a) < snd (fst b)
           \/ (snd (fst a) = snd (fst b) /\ snd a < snd b))))%Z.

(** [index_le keys i j]: the key at [i] does not come after the key at
    [j]. *)
Definition index_le (keys : list float) (i j : nat) : Prop :=
  ~ lex_lt (fkey (key_of keys j)) (fkey (key_of keys i)).

(** ** Reference routines for small diagonal problems

    The numerical libraries are parameters of the model.  To run the methods
    on concrete data the routines below fix what those libraries return on
    diagonal matrices, where the answer can be read off the diagonal: the
    eigenvalues of a diagonal pencil in index order (as LAPACK returns them),
    the eigenvalues of a symmetric diagonal matrix in ascending order, the
    solution of a diagonal system entry by entry.  They decline any other
    input. *)

Module Reference.

Definition entry (A : ndarray) (i j : nat) : float := nth i (nth j (columns A) []) 0%float.

Definition diagonal (A : ndarray) : vec :=
  map (fun j => entry A j j) (seq 0 (shape1 A)).

Definition is_diagonal (A : ndarray) : bool :=
  Nat.eqb (shape0 A) (shape1 A)
  && forallb (fun j => forallb (fun i => Nat.eqb i j || (entry A i j =? 0)%float)
                               (seq 0 (shape0 A)))
             (seq 0 (shape1 A)).

Definition unit_cvec (n j : nat) : cvec :=
  map (fun i => if Nat.eqb i j then of_real 1 else czero) (seq 0 n).

Definition ceye (n : nat) : carray := mkcarr n (map (unit_cvec n) (seq 0 n)).

(** [pow(x, e)] at the exponents the estimators use. *)
Definition pow (x e : float) : float :=
  if (e =? -1)%float then (1 / x)%float
  else if (e =? 0.5)%float then PrimFloat.sqrt x
  else if (e =? -0.5)%float then (1 / PrimFloat.sqrt x)%float
  else if (e =? 1)%float then x
  else nan.

Definition c_abs (z : complex) : float :=
  PrimFloat.sqrt (fst z * fst z + snd z * snd z)%float.

(** [z ** t] at the exponents 0 and 1. *)
Definition c_pow (z : complex) (t : float) : complex :=
  if (t =? 0)%float then of_real 1
  else if (t =? 1)%float then z
  else (nan, nan).

Definition pinv (A : ndarray) : result ndarray :=
  if is_diagonal A
  then Ok (diag_mat (map (fun d => if (d =? 0)%float then 0%float else (1 / d)%float)
                         (diagonal A)))
  else Raise LinAlgError.

Definition pencil_values (A : ndarray) (B : option ndarray) : result (list complex) :=
  match B with
  | None => if is_diagonal A then Ok (map of_real (diagonal A)) else Raise LinAlgError
  | Some B' =>
      if is_diagonal A && is_diagonal B' && Nat.eqb (shape0 A) (shape0 B')
      then Ok (map (fun p => of_real (fst p / snd p)%float)
                   (combine (diagonal A) (diagonal B')))
      else Raise LinAlgError
  end.

Definition eig_lr (A : ndarray) (B : option ndarray)
  : result (list complex * carray * carray) :=
  match pencil_values A B with
  | Ok w => Ok (w, ceye (shape0 A), ceye (shape0 A))
  | Raise e => Raise e
  end.

Definition eigh (A : ndarray) : result (vec * ndarray) :=
  if is_diagonal A
  then let idx := argsort (diagonal A) in
       Ok (map (fun i => nth i (diagonal A) 0%float) idx,
           mkarr (shape0 A) (map (unit_vec (shape0 A)) idx))
  else Raise LinAlgError.

(** Least squares with a diagonal real system: entry-wise division. *)
Definition lstsq (A : carray) (B : ndarray) : result carray :=
  let A' := real_part A in
  if is_diagonal A' && Nat.eqb (shape0 A') (shape0 B)
     && forallb (fun d => negb (d =? 0)%float) (diagonal A')
  then Ok (mkcarr (shape0 B)
                  (map (fun c => map (fun p => of_real (fst p / snd p)%float)
                                     (combine c (diagonal A')))
                       (columns B)))
  else Raise LinAlgError.

(** Modelled from the spec: the helper [weighted_norm] of the legacy [utils]
    module, which is not among the sources.  The spec gives it as the
    per-column value [sqrt(|<v, M v>|)] for column vectors [v] and a
    weighting operator [M]. *)
Definition weighted_norm (A : carray) (M_ : ndarray) : vec :=
  map (fun v =>
         let Mv := cmatvec (carray_of M_) v in
         let ip := csum (map (fun p => cmul (fst (fst p), (- snd (fst p))%float) (snd p))
                             (combine v Mv)) in
         PrimFloat.sqrt (c_abs ip))
      (ccolumns A).

Definition scipy : Legacy.externals :=
  Legacy.mk_externals pow c_abs c_pow pinv eig_lr pencil_values
    (fun _ _ _ => Raise LinAlgError)
    (fun _ _ _ _ _ => Raise LinAlgError)
    (fun _ _ => Raise LinAlgError)
    eigh lstsq weighted_norm.

(** [kernel(A, B) = A @ B.T]: the linear kernel. *)
Definition linear_kernel : Legacy.kernel_fn := fun A B _ => matmul A (transpose B).

(** A generator that hands out numbers drawn beforehand. *)
Fixpoint chunks (n l : nat) (pool : list float) : list vec * list float :=
  match l with
  | O => ([], pool)
  | S l' => let (cs, rest) := chunks n l' (skipn n pool) in (firstn n pool :: cs, rest)
  end.

Definition randn (n l : nat) (pool : list float) : ndarray * list float :=
  let (cs, rest) := chunks n l pool in (mkarr n cs, rest).

Definition norm2 (A : ndarray) : float :=
  fold_left fmax (map PrimFloat.abs (diagonal A)) 0%float.

Definition solve (A B : ndarray) : result ndarray :=
  if is_diagonal A && Nat.eqb (shape0 A) (shape0 B)
     && forallb (fun d => (0 <? d)%float) (diagonal A)
  then Ok (mkarr (shape0 B)
                 (map (fun c => map (fun p => (fst p / snd p)%float) (combine c (diagonal A)))
                      (columns B)))
  else Raise LinAlgError.

Definition lapack : Utils.linalg (list float) :=
  Utils.mk_linalg randn norm2 solve eigh.

End Reference.

(** ** Concrete inputs *)

Module Examples.

(** Two orthogonal columns, the second one the longer. *)
Definition A_piv : ndarray := mkarr 2 [[1; 0]; [0; 2]]%float.

(** Twice the same column, at unit scale and at scale [2^20]. *)
Definition A_dup : ndarray := mkarr 2 [[1; 1]; [1; 1]]%float.
Definition A_dup_big : ndarray :=
  mkarr 2 [[1048576; 1048576]; [1048576; 1048576]]%float.

(** Two samples and their images under a diagonal map, with the linear
    kernel: [X = I], [Y = diag(2, 1)] or [Y = diag(1, 2)]. *)
Definition X2 : ndarray := mkarr 2 [[1; 0]; [0; 1]]%float.
Definition Y21 : ndarray := mkarr 2 [[2; 0]; [0; 1]]%float.
Definition Y12 : ndarray := mkarr 2 [[1; 0]; [0; 2]]%float.

(** A sample set with a zero sample: its linear Gram matrix is
    [diag(1, 0)]. *)
Definition X10 : ndarray := mkarr 2 [[1; 0]; [0; 0]]%float.

Definition new_ridge : Legacy.world :=
  Legacy.mk_world (Legacy.KernelRidgeRegression_init Reference.linear_kernel None) [].

Definition new_pcr : Legacy.world :=
  Legacy.mk_world (Legacy.PrincipalComponentRegression_init Reference.linear_kernel 2) [].

(** [KernelRidgeRegression(kernel).fit(X2, Y21)] and [.fit(X2, Y12)]. *)
Definition fitted_ridge : Legacy.world :=
  snd (Legacy.KernelRidgeRegression_fit X2 Y21 "cpu" new_ridge).

Definition fitted_ridge_12 : Legacy.world :=
  snd (Legacy.KernelRidgeRegression_fit X2 Y12 "cpu" new_ridge).

Definition identity_observable : ndarray -> Legacy.obs_value := Legacy.obs_2d.

(** The same estimator after [eig()], and after [modes()] instead. *)
Definition decomposed_ridge : Legacy.world :=
  snd (Legacy.eig Reference.scipy fitted_ridge).

Definition ready_ridge : Legacy.world :=
  snd (Legacy.modes Reference.scipy 2 identity_observable fitted_ridge).

(** A one-sample problem: [Kx = [[3]]], [Ky = [[1]]] or [[1e10]], and the
    sketch [[1]]. *)
Definition Kx1 : ndarray := mkarr 1 [[3]]%float.
Definition Ky1 : ndarray := mkarr 1 [[1]]%float.
Definition Ky1_big : ndarray := mkarr 1 [[10000000000]]%float.
Definition Omega1 : ndarray := mkarr 1 [[1]]%float.
Definition pool1 : Utils.world (list float) := Utils.mk_world [] [1]%float.

(** A zero column followed by a unit column. *)
Definition A_zero_first : ndarray := mkarr 2 [[0; 0]; [1; 0]]%float.

End Examples.

(** * Properties *)

Unset Implicit Arguments.

Open Scope string_scope.

(** ** Backend selection *)

Lemma parse_backend_unrecognized (backend : string) (X : ndarray) :
  backend <> "auto" -> backend <> "cpu" -> backend <> "keops" ->
  Utils.parse_backend backend X
  = Raise (ValueError ("Unrecognized backend '" ++ backend
                       ++ "'. Accepted values are 'auto', 'cpu' or 'keops'.")).
Proof.
  intros Ha Hc Hk. unfold Utils.parse_backend.
  apply String.eqb_neq in Ha, Hc, Hk. now rewrite Hk, Hc, Ha.
Qed.

(** C6: with mode ['auto'], [parse_backend] returns the dense backend ['cpu']
    exactly when the number of rows of [X] is strictly below 2000 and the
    operator backend ['keops'] otherwise; the modes ['cpu'] and ['keops'] are
    returned unchanged; every other mode string raises a [ValueError]. *)
Theorem parse_backend_spec (backend : string) (X : ndarray) :
  (Utils.parse_backend "auto" X = Ok "cpu" <-> shape0 X < 2000)
  /\ (Utils.parse_backend "auto" X = Ok "keops" <-> 2000 <= shape0 X)
  /\ Utils.parse_backend "cpu" X = Ok "cpu"
  /\ Utils.parse_backend "keops" X = Ok "keops"
  /\ ((backend <> "auto" /\ backend <> "cpu" /\ backend <> "keops")
      <-> exists msg, Utils.parse_backend backend X = Raise (ValueError msg)).
Proof.
  unfold Utils.parse_backend; cbn [String.eqb Ascii.eqb Bool.eqb].
  split; [ | split; [ | split; [ reflexivity | split; [ reflexivity | ] ] ] ].
  - destruct (Nat.ltb_spec (shape0 X) 2000); split; intros; try easy; lia.
  - destruct (Nat.ltb_spec (shape0 X) 2000); split; intros; try easy; lia.
  - split.
    + intros (Ha & Hc & Hk).
      fold (Utils.parse_backend backend X).
      rewrite (parse_backend_unrecognized backend X Ha Hc Hk). eauto.
    + intros [msg Hm].
      repeat split; intros Heq; subst backend; cbn in Hm;
        try (destruct (shape0 X <=? 1999)%nat); discriminate.
Qed.


(** ** Lists updated by index *)

Lemma set_nth_length {A} (i : nat) (x : A) (l : list A) :
  List.length (set_nth i x l) = List.length l.
Proof.
  revert i; induction l as [|h t IH]; intros [|i]; simpl; auto.
Qed.

Lemma nth_set_nth_same {A} (d : A) (i : nat) (x : A) (l : list A) :
  i < List.length l -> nth i (set_nth i x l) d = x.
Proof.
  revert i; induction l as [|h t IH]; intros [|i] Hi; simpl in *; try lia; auto.
  apply IH; lia.
Qed.

Lemma nth_set_nth_other {A} (d : A) (i j : nat) (x : A) (l : list A) :
  i <> j -> nth j (set_nth i x l) d = nth j l d.
Proof.
  revert i j; induction l as [|h t IH]; intros [|i] [|j] Hij; simpl; auto; try lia.
Qed.

Lemma set_nth_nth {A} (d : A) (i : nat) (l : list A) :
  set_nth i (nth i l d) l = l.
Proof.
  revert i; induction l as [|h t IH]; intros [|i]; simpl; auto.
  now rewrite IH.
Qed.

(** Swapping a position with itself changes nothing: this is what
    [perm_[[k, k+idx]] = perm_[[k+idx, k]]] does once [idx] is 0. *)
Lemma swap_nth_same {A} (d : A) (k : nat) (l : list A) :
  swap_nth d k k l = l.
Proof.
  unfold swap_nth.
  destruct (Nat.lt_ge_cases k (List.length l)) as [Hk|Hk].
  - rewrite set_nth_nth.
    replace (nth k l d) with (nth k (set_nth k (nth k l d) l) d) at 1
      by now rewrite set_nth_nth.
    now rewrite !set_nth_nth.
  - now rewrite !set_nth_nth.
Qed.

Lemma map_nth_seq {A} (d : A) (l : list A) :
  map (fun j => nth j l d) (seq 0 (List.length l)) = l.
Proof.
  apply nth_ext with (d := d) (d' := d).
  - now rewrite length_map, length_seq.
  - intros n Hn. rewrite length_map, length_seq in Hn.
    rewrite nth_indep with (d' := nth 0 l d) by now rewrite length_map, length_seq.
    rewrite map_nth with (f := fun j => nth j l d) (d := 0).
    now rewrite seq_nth.
Qed.

Lemma skipn_cons_nth {A} (d : A) (k : nat) (l : list A) :
  k < List.length l -> skipn k l = nth k l d :: skipn (S k) l.
Proof.
  revert k; induction l as [|h t IH]; intros [|k] Hk; simpl in *; try lia; auto.
  apply IH; lia.
Qed.

Lemma nth_app_firstn_map {A B} (d : A) (f : A * B -> A) (j0 j : nat) (l : list A) (r : list B) :
  j < j0 -> j0 <= List.length l ->
  nth j (firstn j0 l ++ map f (combine (skipn j0 l) r)) d = nth j l d.
Proof.
  intros Hj Hl. rewrite app_nth1 by (rewrite length_firstn; lia).
  revert j0 j Hj Hl; induction l as [|h t IH]; intros [|j0] [|j] Hj Hl; simpl in *; try lia; auto.
  apply IH; lia.
Qed.

Lemma nth_app_skipn_map {A B} (d : A) (e : B) (f : A * B -> A) (j0 j : nat) (l : list A) (r : list B) :
  j0 <= j -> j < List.length l -> List.length r = List.length l - j0 ->
  nth j (firstn j0 l ++ map f (combine (skipn j0 l) r)) d
  = f (nth j l d, nth (j - j0) r e).
Proof.
  intros Hj Hl Hr.
  rewrite app_nth2 by (rewrite length_firstn; lia).
  rewrite length_firstn, Nat.min_l by lia.
  assert (Hlen : j - j0 < List.length (combine (skipn j0 l) r))
    by (rewrite length_combine, length_skipn; lia).
  rewrite nth_indep with (d' := f (d, e)) by now rewrite length_map.
  rewrite map_nth with (f := f) (d := (d, e)).
  rewrite combine_nth by (rewrite length_skipn; lia).
  rewrite nth_skipn. do 3 f_equal. lia.
Qed.

(** ** The pivoted Gram-Schmidt loop *)

Section GramSchmidt.

Variables (M_ : ndarray) (dim vecs : nat).

Hypothesis M_shape : shape0 M_ = dim /\ shape1 M_ = dim.

Lemma shape_test : negb (Nat.eqb (shape0 M_) dim && Nat.eqb (shape1 M_) dim) = false.
Proof. destruct M_shape as [-> ->]. now rewrite !Nat.eqb_refl. Qed.

Lemma pivot_norm_column (k : nat) (st : Utils.qr_state) :
  k < List.length (Utils.qr_Q st) ->
  Utils.pivot_norm M_ k st
  = PrimFloat.sqrt (PrimFloat.abs (Utils.sq_norm M_ (nth k (Utils.qr_Q st) []))).
Proof.
  intros Hk. unfold Utils.pivot_norm, Utils.weighted_sq_norms.
  now rewrite (skipn_cons_nth ([] : vec) k _ Hk).
Qed.

(** The offset the code continues with is 0, whatever the norms are. *)
Lemma select_pivot_zero (nrm_ : vec) :
  nrm_ <> [] -> Utils.select_pivot nrm_ = Ok 0.
Proof.
  unfold Utils.select_pivot, argmax. destruct nrm_; [congruence | reflexivity].
Qed.

Lemma qr_step_eq (k : nat) (st : Utils.qr_state) :
  k < List.length (Utils.qr_Q st) ->
  Utils.qr_step M_ dim vecs k st
  = if (Utils.pivot_norm M_ k st <? Utils.pivot_tol)%float
    then Ok (Utils.break_step M_ k st, false)
    else Ok (Utils.normalise_step M_ vecs k st, true).
Proof.
  intros Hk. unfold Utils.qr_step. rewrite shape_test.
  rewrite select_pivot_zero.
  2:{ unfold Utils.weighted_sq_norms. rewrite (skipn_cons_nth ([] : vec) k _ Hk). discriminate. }
  rewrite Nat.add_0_r, !swap_nth_same.
  fold (Utils.pivot_norm M_ k st).
  unfold Utils.break_step, Utils.normalise_step.
  destruct (Utils.pivot_norm M_ k st <? Utils.pivot_tol)%float; simpl; [reflexivity|].
  destruct (k <? vecs - 1)%nat; reflexivity.
Qed.

Lemma deflate_from_length (j0 : nat) (q row : vec) (Q : list vec) :
  List.length row = List.length Q - j0 -> j0 <= List.length Q ->
  List.length (Utils.deflate_from j0 q row Q) = List.length Q.
Proof.
  intros Hr Hj. unfold Utils.deflate_from.
  rewrite length_app, length_map, length_combine, length_firstn, length_skipn. lia.
Qed.

Lemma set_row_from_length (k j0 : nat) (row : vec) (R : list vec) :
  List.length row = List.length R - j0 -> j0 <= List.length R ->
  List.length (Utils.set_row_from k j0 row R) = List.length R.
Proof.
  intros Hr Hj. unfold Utils.set_row_from.
  rewrite length_app, length_map, length_combine, length_firstn, length_skipn. lia.
Qed.

Lemma normalise_step_inv (k : nat) (st : Utils.qr_state) :
  k < vecs -> Utils.qr_inv vecs st -> Utils.qr_inv vecs (Utils.normalise_step M_ vecs k st).
Proof.
  intros Hk (HQ & HR & HP). unfold Utils.normalise_step, Utils.qr_inv.
  destruct (Nat.ltb_spec k (vecs - 1)); simpl.
  - rewrite deflate_from_length, set_row_from_length;
      rewrite ?set_nth_length; unfold vecmat;
      rewrite ?length_map, ?length_skipn, ?set_nth_length; auto; lia.
  - rewrite !set_nth_length. auto.
Qed.

Lemma break_step_inv (k : nat) (st : Utils.qr_state) :
  Utils.qr_inv vecs st -> Utils.qr_inv vecs (Utils.break_step M_ k st).
Proof.
  intros (HQ & HR & HP). unfold Utils.break_step, Utils.qr_inv; simpl.
  rewrite set_nth_length. auto.
Qed.

(** What a normalising pass does to the columns of [Q]: those before [k]
    are kept, column [k] is divided by its own weighted norm, and the later
    ones lose their component along the new column [k]. *)
Lemma normalise_step_columns (k : nat) (st : Utils.qr_state) :
  k < List.length (Utils.qr_Q st) ->
  let Q := Utils.qr_Q st in
  let Q' := Utils.qr_Q (Utils.normalise_step M_ vecs k st) in
  let qk := vdiv (nth k Q []) (Utils.pivot_norm M_ k st) in
  (forall j, j < k -> nth j Q' [] = nth j Q [])
  /\ nth k Q' [] = qk
  /\ (forall j, k < j < List.length Q ->
        nth j Q' []
        = if (k <? vecs - 1)%nat
          then vsub (nth j Q []) (vscale (dot (matvec M_ qk) (nth j Q [])) qk)
          else nth j Q []).
Proof.
  intros Hk Q Q' qk. subst Q'. unfold Utils.normalise_step.
  fold Q. fold qk.
  destruct (k <? vecs - 1)%nat; simpl.
  - unfold Utils.deflate_from.
    assert (HL : List.length (set_nth k qk Q) = List.length Q) by apply set_nth_length.
    repeat split.
    + intros j Hj.
      rewrite nth_app_firstn_map by (rewrite ?HL; subst Q; lia).
      apply nth_set_nth_other; lia.
    + rewrite nth_app_firstn_map by (rewrite ?HL; subst Q; lia).
      apply nth_set_nth_same. subst Q; lia.
    + intros j Hj.
      rewrite nth_app_skipn_map with (e := 0%float).
      2: lia. 2: rewrite HL; lia.
      2:{ unfold vecmat. rewrite length_map, length_skipn. lia. }
      simpl. unfold vecmat.
      rewrite nth_indep with (d' := dot (matvec M_ qk) []).
      2:{ rewrite length_map, length_skipn, HL. lia. }
      rewrite map_nth with (f := dot (matvec M_ qk)) (d := []).
      rewrite nth_skipn.
      replace (k + 1 + (j - (k + 1))) with j by lia.
      rewrite nth_set_nth_other by lia. reflexivity.
  - repeat split.
    + intros j Hj. apply nth_set_nth_other; lia.
    + apply nth_set_nth_same. subst Q; lia.
    + intros j Hj. apply nth_set_nth_other; lia.
Qed.

End GramSchmidt.


Section Loop.

Variables (M_ : ndarray) (dim vecs : nat).

Hypothesis M_shape : shape0 M_ = dim /\ shape1 M_ = dim.

(** The loop entered at step [k] passes normalising steps up to some [r],
    and either [r] is the number of columns and the loop ends, or the pivot
    of step [r] is below the tolerance and the loop breaks there. *)
Lemma qr_loop_runs (n k : nat) (st : Utils.qr_state) (rank0 : nat) :
  k + n = vecs ->
  Utils.qr_inv vecs st ->
  exists r st',
    Utils.normalised M_ dim vecs k st r st'
    /\ k <= r <= vecs
    /\ Utils.qr_inv vecs st'
    /\ ((r = vecs /\ Utils.qr_loop M_ dim vecs (seq k n) st rank0 = Ok (st', rank0))
        \/ (r < vecs
            /\ (Utils.pivot_norm M_ r st' <? Utils.pivot_tol)%float = true
            /\ Utils.qr_loop M_ dim vecs (seq k n) st rank0 = Ok (Utils.break_step M_ r st', r))).
Proof.
  revert k st. induction n as [|n IH]; intros k st Hkn Hinv.
  - exists k, st. split; [constructor|]. split; [lia|]. split; [exact Hinv|].
    left. split; [lia | reflexivity].
  - assert (Hk : k < List.length (Utils.qr_Q st)) by (destruct Hinv as (-> & _); lia).
    simpl. rewrite (qr_step_eq M_ dim vecs M_shape k st Hk).
    destruct (Utils.pivot_norm M_ k st <? Utils.pivot_tol)%float eqn:Hp.
    + exists k, st. split; [constructor|]. split; [lia|]. split; [exact Hinv|].
      right. split; [lia|]. split; [exact Hp | reflexivity].
    + assert (Hinv' : Utils.qr_inv vecs (Utils.normalise_step M_ vecs k st))
        by (apply (normalise_step_inv M_ dim vecs M_shape); [lia | exact Hinv]).
      destruct (IH (S k) _ ltac:(lia) Hinv') as (r & st' & Hn & Hr & Hi & Hres).
      exists r, st'. split.
      { eapply Utils.normalised_step; eauto.
        rewrite (qr_step_eq M_ dim vecs M_shape k st Hk), Hp. reflexivity. }
      split; [lia|]. split; [exact Hi | exact Hres].
Qed.

End Loop.

Lemma norm1_defined (X : list vec) :
  X <> [] -> exists err, norm1 X = Ok err.
Proof.
  unfold norm1. destruct X as [|c t]; [congruence|]. simpl. eauto.
Qed.

Lemma minus_diag_length (X : list vec) :
  List.length (minus_diag X) = List.length X.
Proof.
  unfold minus_diag. rewrite length_map, length_combine, length_seq. lia.
Qed.

Lemma eye_shape (n : nat) : shape0 (eye n) = n /\ shape1 (eye n) = n.
Proof. unfold eye, shape1; simpl. now rewrite length_map, length_seq. Qed.

(** C3 (as the code has it): at every elimination step [k], [modified_QR]
    computes the weighted residual norms of the columns [k] onward, discards
    their argmax and continues with offset 0.  So the column taken as pivot is
    column [k] itself, nothing is swapped (the permutation is left as it was),
    the pivot is the weighted norm of column [k]; when it is not below the
    tolerance the column is divided by it and deflated out of the columns after
    it, the columns before it being kept. *)
Theorem qr_step_takes_column_k (M_ : ndarray) (dim vecs k : nat)
  (st st' : Utils.qr_state) (go : bool) :
  shape0 M_ = dim /\ shape1 M_ = dim ->
  List.length (Utils.qr_Q st) = vecs ->
  k < vecs ->
  Utils.qr_step M_ dim vecs k st = Ok (st', go) ->
  let Q := Utils.qr_Q st in
  let pivot := PrimFloat.sqrt (PrimFloat.abs (Utils.sq_norm M_ (nth k Q []))) in
  let qk := vdiv (nth k Q []) pivot in
  Utils.select_pivot (Utils.weighted_sq_norms M_ (skipn k Q)) = Ok 0
  /\ Utils.qr_perm st' = Utils.qr_perm st
  /\ go = negb (pivot <? Utils.pivot_tol)%float
  /\ (forall j, j < k -> nth j (Utils.qr_Q st') [] = nth j Q [])
  /\ (go = false -> Utils.qr_Q st' = Q)
  /\ (go = true ->
      nth k (Utils.qr_Q st') [] = qk
      /\ forall j, k < j < vecs ->
           nth j (Utils.qr_Q st') []
           = vsub (nth j Q []) (vscale (dot (matvec M_ qk) (nth j Q [])) qk)).
Proof.
  intros HM HQ Hk Hstep Q pivot qk.
  assert (Hk' : k < List.length (Utils.qr_Q st)) by lia.
  rewrite (qr_step_eq M_ dim vecs HM k st Hk') in Hstep.
  assert (Hp : Utils.pivot_norm M_ k st = pivot) by (apply pivot_norm_column; exact Hk').
  rewrite Hp in Hstep.
  split.
  { apply select_pivot_zero. unfold Utils.weighted_sq_norms, Q.
    rewrite (skipn_cons_nth ([] : vec) k _ Hk'). discriminate. }
  destruct (pivot <? Utils.pivot_tol)%float eqn:Hcmp; inversion Hstep; subst st' go; clear Hstep.
  - repeat split; try reflexivity; try discriminate.
  - destruct (normalise_step_columns M_ dim vecs HM k st Hk') as (Hbefore & Hat & Hafter).
    rewrite Hp in Hat, Hafter. fold Q in Hbefore, Hat, Hafter. fold qk in Hat, Hafter.
    repeat split; try reflexivity; try discriminate; auto.
    + unfold Utils.normalise_step. destruct (k <? vecs - 1)%nat; reflexivity.
    + intros j Hj. rewrite Hafter by (subst Q; lia).
      destruct (Nat.ltb_spec k (vecs - 1)); [reflexivity | lia].
Qed.


Lemma qr_step_takes_column_k_witness :
  let st := Utils.qr_init Examples.A_piv in
  let st' := Utils.normalise_step (eye 2) 2 0 st in
  Utils.qr_step (eye 2) 2 2 0 st = Ok (st', true)
  /\ Utils.qr_perm st' = Utils.qr_perm st
  /\ nth 0 (Utils.qr_Q st') [] = [1; 0]%float.
Proof.
  intros st st'.
  assert (H : Utils.qr_step (eye 2) 2 2 0 st = Ok (st', true)) by (vm_compute; reflexivity).
  destruct (qr_step_takes_column_k (eye 2) 2 2 0 st st' true
              (conj eq_refl eq_refl) eq_refl (Nat.lt_0_succ 1) H)
    as (_ & Hperm & _ & _ & _ & Hgo).
  split; [exact H|]. split; [exact Hperm|].
  destruct (Hgo eq_refl) as [Hk _]. rewrite Hk. vm_compute. reflexivity.
Defined.

(** C3 fails as stated: of the columns [(1,0)] and [(0,2)] the second has
    the largest weighted norm ([argmax] is 1), yet the offset the code goes on
    with is 0; the first pass normalises column 0 in place and swaps nothing. *)
Lemma largest_column_is_not_the_pivot :
  Utils.weighted_sq_norms (eye 2) (skipn 0 (columns Examples.A_piv)) = [1; 4]%float
  /\ argmax [1; 4]%float = Ok 1
  /\ Utils.select_pivot [1; 4]%float = Ok 0
  /\ Utils.qr_step (eye 2) 2 2 0 (Utils.qr_init Examples.A_piv)
     = Ok (Utils.mkqr [[1; 0]; [0; 2]]%float [[1; 0]; [0; 0]]%float [0; 1], true).
Proof. repeat split; vm_compute; reflexivity. Qed.

(** C4 (as the code has it): [modified_QR] on a matrix with at least one
    column and a recognised backend never raises.  It passes [r] normalising
    steps, each with a pivot that is not below [1e-12], and either [r] is the
    width of the input or the pivot of step [r] is below [1e-12] and the loop
    stops there; it returns exactly the first [r] columns of the working copy,
    in their original order.  So a rank below the width is reported exactly
    when some pivot falls below the absolute tolerance. *)
Theorem modified_QR_rank (A : ndarray) (backend b : string) (M0 : option ndarray)
  (out : list event) :
  Utils.parse_backend backend A = Ok b ->
  0 < shape1 A ->
  (forall m, M0 = Some m -> shape0 m = shape0 A /\ shape1 m = shape0 A) ->
  let M_ := match M0 with Some m => m | None => eye (shape0 A) end in
  exists r st err,
    Utils.normalised M_ (shape0 A) (shape1 A) 0 (Utils.qr_init A) r st
    /\ r <= shape1 A
    /\ (r < shape1 A -> (Utils.pivot_norm M_ r st <? Utils.pivot_tol)%float = true)
    /\ Utils.modified_QR A backend M0 out
       = (Ok (mkarr (shape0 A) (firstn r (Utils.qr_Q st))),
          (out ++ [Print "orthogonality error:" [err]])%list)
    /\ List.length (firstn r (Utils.qr_Q st)) = r.
Proof.
  intros Hb Hw HM M_.
  assert (HM_ : shape0 M_ = shape0 A /\ shape1 M_ = shape0 A).
  { subst M_. destruct M0 as [m|]; [now apply HM | apply eye_shape]. }
  assert (Hinit : Utils.qr_inv (shape1 A) (Utils.qr_init A)).
  { unfold Utils.qr_inv, Utils.qr_init, zeros; simpl. rewrite repeat_length. auto. }
  destruct (qr_loop_runs M_ (shape0 A) (shape1 A) HM_ (shape1 A) 0 (Utils.qr_init A)
              (shape1 A) eq_refl Hinit)
    as (r & st & Hn & Hr & (HQ & HR & HP) & Hres).
  assert (Hloop : exists stf,
             Utils.qr_loop M_ (shape0 A) (shape1 A) (seq 0 (shape1 A)) (Utils.qr_init A) (shape1 A)
             = Ok (stf, r)
             /\ Utils.qr_Q stf = Utils.qr_Q st
             /\ Utils.qr_perm stf = seq 0 (shape1 A)
             /\ List.length (Utils.qr_R stf) = shape1 A).
  { destruct Hres as [(-> & H) | (Hlt & Hp & H)].
    - exists st. auto.
    - exists (Utils.break_step M_ r st). repeat split; auto.
      simpl. now rewrite set_nth_length. }
  destruct Hloop as (stf & Hloop & HQf & HPf & HRf).
  destruct (norm1_defined (minus_diag (Utils.qr_R stf))) as [err Herr].
  { intros Hnil. apply (f_equal (@List.length vec)) in Hnil.
    rewrite minus_diag_length, HRf in Hnil. simpl in Hnil. lia. }
  exists r, st, err.
  split; [exact Hn|]. split; [lia|]. split.
  { intros Hlt. destruct Hres as [(-> & _) | (_ & Hp & _)]; [lia | exact Hp]. }
  split.
  - unfold Utils.modified_QR, bind, lift_result, print, modify, ret, log_event.
    rewrite Hb.
    replace (match M0 with
             | Some m => m
             | None => if (b =? "keops")%string then identity (shape0 A) else eye (shape0 A)
             end) with M_
      by (subst M_; destruct M0; [reflexivity | destruct (b =? "keops")%string; reflexivity]).
    rewrite Hloop. simpl. rewrite Herr, HQf, HPf.
    rewrite <- HQ, map_nth_seq. reflexivity.
  - rewrite length_firstn. lia.
Qed.

Lemma modified_QR_rank_witness :
  exists r Q out,
    r <= 2
    /\ Utils.modified_QR Examples.A_dup "cpu" None [] = (Ok Q, out)
    /\ shape1 Q = r.
Proof.
  destruct (modified_QR_rank Examples.A_dup "cpu" "cpu" None [] eq_refl (Nat.lt_0_succ 1))
    as (r & st & err & _ & Hr & _ & Hrun & Hlen).
  - intros m Hm. discriminate Hm.
  - exists r. eexists. eexists. split; [exact Hr|]. split; [exact Hrun|]. exact Hlen.
Defined.

(** On twice the column [(1,1)] the second pivot is below the tolerance and
    one column is returned. *)
Example duplicate_unit_columns_detected :
  exists Q out,
    Utils.modified_QR Examples.A_dup "cpu" None [] = (Ok Q, out) /\ shape1 Q = 1.
Proof. eexists. eexists. split; [vm_compute; reflexivity | reflexivity]. Qed.

(** C4 fails as stated: the two columns of [A_dup_big] are equal, so the
    matrix has rank 1, but the residual left by the deflation in binary64
    arithmetic, [2^-32], has norm above [1e-12]; two columns are returned, the
    width of the input. *)
Lemma duplicate_columns_not_detected :
  nth 0 (columns Examples.A_dup_big) [] = nth 1 (columns Examples.A_dup_big) []
  /\ exists Q out,
       Utils.modified_QR Examples.A_dup_big "cpu" None [] = (Ok Q, out)
       /\ shape1 Q = shape1 Examples.A_dup_big.
Proof.
  split; [reflexivity|].
  eexists. eexists. split; [vm_compute; reflexivity | reflexivity].
Qed.

(** ** The randomized eigensolver *)

(** C8 (as the code has it): a power-iteration round solves
    [(Kx + n*reg*I) z = Ky @ Omega] and replaces the sketch by
    [Ky @ Omega - n*reg*z], not by [z]; the rounds are applied one after the
    other, and only the solve that follows them makes the solution [z] the
    new sketch. *)
Theorem power_round_sketch (rng : Type) (E : Utils.linalg rng) (Kx Ky : ndarray)
  (n : nat) (reg : float) (Omega z : ndarray) :
  Utils.solve E (Utils.regularized Kx n reg) (matmul Ky Omega) = Ok z ->
  let Omega' := msub (matmul Ky Omega) (mscale (float_of_nat n * reg)%float z) in
  Utils.power_round E Kx Ky n reg Omega = Ok Omega'
  /\ Utils.final_solve E Kx Ky n reg Omega = Ok z
  /\ forall p, Utils.power_rounds E Kx Ky n reg (S p) Omega
               = Utils.power_rounds E Kx Ky n reg p Omega'.
Proof.
  intros Hz Omega'. unfold Utils.final_solve.
  assert (Hround : Utils.power_round E Kx Ky n reg Omega = Ok Omega')
    by (unfold Utils.power_round; now rewrite Hz).
  repeat split; auto.
  intros p. simpl. now rewrite Hround.
Qed.

Lemma power_round_sketch_witness :
  Utils.solve Reference.lapack (Utils.regularized Examples.Kx1 1 1)
              (matmul Examples.Ky1 Examples.Omega1) = Ok (mkarr 1 [[0.25]]%float)
  /\ Utils.power_round Reference.lapack Examples.Kx1 Examples.Ky1 1 1 Examples.Omega1
     = Ok (msub (matmul Examples.Ky1 Examples.Omega1)
                (mscale (float_of_nat 1 * 1)%float (mkarr 1 [[0.25]]%float))).
Proof.
  assert (H : Utils.solve Reference.lapack (Utils.regularized Examples.Kx1 1 1)
                (matmul Examples.Ky1 Examples.Omega1) = Ok (mkarr 1 [[0.25]]%float))
    by (vm_compute; reflexivity).
  split; [exact H|].
  exact (proj1 (power_round_sketch (list float) Reference.lapack Examples.Kx1 Examples.Ky1
                  1 1%float Examples.Omega1 (mkarr 1 [[0.25]]%float) H)).
Defined.

(** C8 fails as stated: with [Kx = [[3]]], [Ky = [[1]]], [n = 1], [reg = 1]
    and the sketch [[1]], the system [4 z = 1] has the solution [0.25], and
    the sketch after the round is [0.75]. *)
Lemma power_round_is_not_the_solution :
  Utils.solve Reference.lapack (Utils.regularized Examples.Kx1 1 1)
              (matmul Examples.Ky1 Examples.Omega1) = Ok (mkarr 1 [[0.25]]%float)
  /\ Utils.power_round Reference.lapack Examples.Kx1 Examples.Ky1 1 1 Examples.Omega1
     = Ok (mkarr 1 [[0.75]]%float).
Proof. split; vm_compute; reflexivity. Qed.



(** ** The order of binary64 numbers and [np.argsort] *)

Ltac float_cases ma mb ea eb :=
  change (PosDef.Pos.compare_cont Eq ma mb) with (Pos.compare ma mb);
  destruct (Z.compare_spec ea eb); destruct (Pos.compare_spec ma mb); simpl;
  (split; [intros; try discriminate; lia | intros; try reflexivity; lia]).

Lemma FLOAT_LT_lex (a b : float) :
  FLOAT_LT a b = true <-> lex_lt (fkey a) (fkey b).
Proof.
  unfold FLOAT_LT, is_nan, fkey, lex_lt.
  rewrite ltb_spec, !eqb_spec. unfold SFltb, SFeqb.
  destruct (Prim2SF a) as [sa|sa| |sa ma ea], (Prim2SF b) as [sb|sb| |sb mb eb];
    try destruct sa; try destruct sb; simpl;
    rewrite ?Z.compare_refl, ?Pos.compare_cont_refl; simpl;
    try (split; [intros; try discriminate; lia | intros; try reflexivity; lia]).
  all: float_cases ma mb ea eb.
Qed.

Lemma is_nan_fkey (a : float) : is_nan a = true <-> fkey a = (3, 0, 0)%Z.
Proof.
  unfold is_nan, fkey. rewrite eqb_spec. unfold SFeqb.
  destruct (Prim2SF a) as [sa|sa| |sa ma ea]; try destruct sa; simpl;
    rewrite ?Z.compare_refl, ?Pos.compare_cont_refl; simpl;
    split; intros; try discriminate; try reflexivity.
Qed.

Lemma leb_lex (a b : float) :
  is_nan a = false -> is_nan b = false ->
  ((a <=? b)%float = true <-> ~ lex_lt (fkey b) (fkey a)).
Proof.
  unfold is_nan, fkey, lex_lt.
  rewrite leb_spec, !eqb_spec. unfold SFleb, SFeqb.
  destruct (Prim2SF a) as [sa|sa| |sa ma ea], (Prim2SF b) as [sb|sb| |sb mb eb];
    try destruct sa; try destruct sb; simpl;
    rewrite ?Z.compare_refl, ?Pos.compare_cont_refl; simpl;
    try (intros; split; [intros; try discriminate; lia | intros; try reflexivity; lia]).
  all: intros _ _; float_cases ma mb ea eb.
Qed.

Lemma lex_lt_asym (a b : Z * Z * Z) : lex_lt a b -> ~ lex_lt b a.
Proof. unfold lex_lt. lia. Qed.

Lemma lex_le_trans (a b c : Z * Z * Z) :
  ~ lex_lt b a -> ~ lex_lt c b -> ~ lex_lt c a.
Proof. unfold lex_lt. lia. Qed.

Lemma insert_index_In (keys : list float) (i x : nat) (l : list nat) :
  In x (insert_index keys i l) -> x = i \/ In x l.
Proof.
  induction l as [|j rest IH]; simpl.
  - intros [H|[]]; auto.
  - destruct (FLOAT_LT (key_of keys i) (key_of keys j)); simpl.
    + intros [H|[H|H]]; auto.
    + intros [H|H]; auto. destruct (IH H); auto.
Qed.

Lemma insert_index_sorted (keys : list float) (i : nat) (l : list nat) :
  StronglySorted (index_le keys) l ->
  StronglySorted (index_le keys) (insert_index keys i l).
Proof.
  induction 1 as [|j rest Hs IH Hall]; simpl.
  - repeat constructor.
  - destruct (FLOAT_LT (key_of keys i) (key_of keys j)) eqn:Hlt.
    + apply FLOAT_LT_lex in Hlt.
      constructor; [constructor; assumption|].
      constructor; [now apply lex_lt_asym|].
      rewrite Forall_forall in Hall |- *. intros x Hx.
      unfold index_le in *. specialize (Hall x Hx).
      apply lex_lt_asym in Hlt. eapply lex_le_trans; eauto.
    + constructor; [exact IH|].
      rewrite Forall_forall in Hall |- *. intros x Hx.
      destruct (insert_index_In keys i x rest Hx) as [->|Hin]; [|now apply Hall].
      unfold index_le. intros Hc. apply FLOAT_LT_lex in Hc. congruence.
Qed.

Lemma argsort_sorted (keys : list float) :
  StronglySorted (index_le keys) (argsort keys).
Proof.
  unfold argsort.
  assert (H : forall ids acc, StronglySorted (index_le keys) acc ->
              StronglySorted (index_le keys)
                (fold_left (fun sorted i => insert_index keys i sorted) ids acc)).
  { induction ids as [|i ids IH]; intros acc Hacc; simpl; auto.
    apply IH. now apply insert_index_sorted. }
  apply H. constructor.
Qed.

Lemma StronglySorted_nth {A} (R : A -> A -> Prop) (d : A) (l : list A) :
  StronglySorted R l ->
  forall i j, i < j < List.length l -> R (nth i l d) (nth j l d).
Proof.
  induction 1 as [|a l Hs IH Hall]; intros i j Hij; simpl in *; [lia|].
  destruct i as [|i], j as [|j]; try lia.
  - rewrite Forall_forall in Hall. apply Hall. apply nth_In. lia.
  - apply IH. lia.
Qed.

Lemma take_map {A} (d : A) (l : list A) (idx : list nat) (r : list A) :
  take l idx = Ok r ->
  r = map (fun i => nth i l d) idx /\ Forall (fun i => i < List.length l) idx.
Proof.
  revert r; induction idx as [|i rest IH]; intros r; simpl.
  - intros H; inversion H; auto.
  - destruct (nth_error l i) as [x|] eqn:Hx; [|discriminate].
    destruct (take l rest) as [xs|e]; [|discriminate].
    intros H; inversion H; subst r.
    destruct (IH xs eq_refl) as [-> Hall].
    split.
    + f_equal. symmetry. now apply nth_error_nth.
    + constructor; [|exact Hall]. apply nth_error_Some. congruence.
Qed.

(** Selecting by the reversed argsort of the moduli gives moduli in
    descending order, provided none of them is a NaN. *)
Lemma take_by_descending_modulus (c_abs : complex -> float)
  (evals sorted : list complex) :
  take evals (rev (argsort (map c_abs evals))) = Ok sorted ->
  (forall z, In z sorted -> is_nan (c_abs z) = false) ->
  descending (map c_abs sorted).
Proof.
  intros Htake Hnan.
  set (keys := map c_abs evals) in *.
  destruct (take_map czero evals _ sorted Htake) as [Hsorted Hrange].
  assert (Hkeys : map c_abs sorted = map (key_of keys) (rev (argsort keys))).
  { rewrite Hsorted, map_map. apply map_ext_in. intros i Hi.
    rewrite Forall_forall in Hrange. specialize (Hrange i Hi).
    unfold key_of, keys.
    rewrite nth_indep with (d' := c_abs czero) by now rewrite length_map.
    now rewrite map_nth. }
  intros p q Hpq. rewrite length_map in Hpq.
  assert (Hlen : List.length sorted = List.length (argsort keys)).
  { rewrite Hsorted, length_map, length_rev. reflexivity. }
  assert (Hp : is_nan (nth p (map c_abs sorted) 0%float) = false).
  { rewrite nth_indep with (d' := c_abs czero) by (rewrite length_map; lia).
    rewrite map_nth. apply Hnan, nth_In. lia. }
  assert (Hq : is_nan (nth q (map c_abs sorted) 0%float) = false).
  { rewrite nth_indep with (d' := c_abs czero) by (rewrite length_map; lia).
    rewrite map_nth. apply Hnan, nth_In. lia. }
  apply leb_lex; auto.
  rewrite Hkeys.
  rewrite !nth_indep with (d := 0%float) (d' := key_of keys 0)
    by (rewrite length_map, length_rev; lia).
  rewrite !map_nth.
  rewrite !rev_nth by lia.
  apply (StronglySorted_nth (index_le keys) 0 (argsort keys) (argsort_sorted keys)).
  lia.
Qed.

(** ** Reasoning about effectful methods *)

Section Keeps.

Context {T : Type} (mu : Legacy.world -> T).

Lemma keeps_ret {A} (a : A) : Legacy.keeps mu (ret a).
Proof. intros w; reflexivity. Qed.

Lemma keeps_raise {A} (e : exn) : Legacy.keeps mu (@raise _ A e).
Proof. intros w; reflexivity. Qed.

Lemma keeps_lift_result {A} (r : result A) : Legacy.keeps mu (lift_result r).
Proof. intros w; reflexivity. Qed.

Lemma keeps_get : Legacy.keeps mu get.
Proof. intros w; reflexivity. Qed.

Lemma keeps_getattr {A} (name : string) (proj : Legacy.estimator -> option A) :
  Legacy.keeps mu (Legacy.getattr name proj).
Proof. intros w; unfold Legacy.getattr. destruct (proj (Legacy.self w)); reflexivity. Qed.

Lemma keeps_bind {A B} (m : M Legacy.world A) (f : A -> M Legacy.world B) :
  Legacy.keeps mu m -> (forall a, Legacy.keeps mu (f a)) -> Legacy.keeps mu (bind m f).
Proof.
  intros Hm Hf w. unfold bind. specialize (Hm w).
  destruct (m w) as [[a|e] w1]; simpl in *.
  - rewrite <- Hm. apply Hf.
  - exact Hm.
Qed.

Lemma keeps_except {A} (body handler : M Legacy.world A) :
  Legacy.keeps mu body -> Legacy.keeps mu handler ->
  Legacy.keeps mu (except_AttributeError body handler).
Proof.
  intros Hb Hh w. unfold except_AttributeError. specialize (Hb w).
  destruct (body w) as [[a|e] w1]; simpl in *; auto.
  destruct (is_attribute_error e); simpl; auto.
  rewrite <- Hb. apply Hh.
Qed.

Lemma keeps_modify (f : Legacy.world -> Legacy.world) :
  (forall w, mu (f w) = mu w) -> Legacy.keeps mu (modify f).
Proof. intros H w. apply H. Qed.

Lemma keeps_call_kernel (A B : ndarray) (b : string) :
  (forall w, mu (Legacy.emit (KernelEval b) w) = mu w) ->
  Legacy.keeps mu (Legacy.call_kernel A B b).
Proof. intros H w. apply H. Qed.

Lemma keeps_ok_of_keeps {A} (m : M Legacy.world A) :
  Legacy.keeps mu m -> Legacy.keeps_ok mu m.
Proof. intros H w a w' Hm. specialize (H w). now rewrite Hm in H. Qed.

Lemma keeps_ok_bind {A B} (m : M Legacy.world A) (f : A -> M Legacy.world B) :
  Legacy.keeps_ok mu m -> (forall a, Legacy.keeps_ok mu (f a)) ->
  Legacy.keeps_ok mu (bind m f).
Proof.
  intros Hm Hf w b w'. unfold bind.
  destruct (m w) as [[a|e] w1] eqn:Hmw; [|discriminate].
  intros Hfa. rewrite (Hf a w1 b w' Hfa). now apply (Hm w a).
Qed.

Lemma keeps_ok_raises {A B} (e : exn) :
  Legacy.keeps_ok mu (@lift_result Legacy.world A (Raise e)) /\
  Legacy.keeps_ok mu (@raise Legacy.world B e).
Proof. split; intros w a w' H; discriminate H. Qed.

End Keeps.


Lemma kernel_evals_emit (e : event) (w : Legacy.world) :
  Legacy.kernel_evals (Legacy.out (Legacy.emit e w))
  = (if Legacy.is_kernel_eval e then 1 else 0) + Legacy.kernel_evals (Legacy.out w).
Proof.
  unfold Legacy.kernel_evals, Legacy.emit, log_event; simpl.
  rewrite filter_app, length_app; simpl.
  destruct (Legacy.is_kernel_eval e); simpl; lia.
Qed.

Ltac unfold_methods :=
  unfold Legacy.sort_spectrum, Legacy.store_eig, Legacy.norm_right, Legacy.norm_left,
    Legacy.return_spectrum, Legacy.projected, Legacy.call_closure,
    Legacy.select_spectrum, Legacy.evolve, Legacy._init_kernels, Legacy.modes_body,
    Legacy.KernelRidgeRegression_eig, Legacy.TruncatedKernelRidgeRegression_eig,
    Legacy.LowRankKoopmanRegression_eig, Legacy.forecast, print.

(** Breaking a [keeps] goal down along the syntax of the method. *)
Ltac keeps_step obligation :=
  lazymatch goal with
  | |- Legacy.keeps _ (bind _ _) => apply keeps_bind; [ | intros ? ]
  | |- Legacy.keeps _ (ret _) => apply keeps_ret
  | |- Legacy.keeps _ (raise _) => apply keeps_raise
  | |- Legacy.keeps _ Legacy.not_fitted => apply keeps_raise
  | |- Legacy.keeps _ (lift_result _) => apply keeps_lift_result
  | |- Legacy.keeps _ get => apply keeps_get
  | |- Legacy.keeps _ (Legacy.getattr _ _) => apply keeps_getattr
  | |- Legacy.keeps _ (except_AttributeError _ _) => apply keeps_except
  | |- Legacy.keeps _ (Legacy.setattr _) => apply keeps_modify; intros ?; obligation
  | |- Legacy.keeps _ (Legacy.warn _) => apply keeps_modify; intros ?; obligation
  | |- Legacy.keeps _ (modify _) => apply keeps_modify; intros ?; obligation
  | |- Legacy.keeps _ (Legacy.call_kernel _ _ _) =>
      apply keeps_call_kernel; intros ?; obligation
  | |- Legacy.keeps _ (if ?b then _ else _) => destruct b
  | |- Legacy.keeps _ (match ?x with _ => _ end) => destruct x
  | |- Legacy.keeps _ (let _ := _ in _) => cbv zeta
  | |- Legacy.keeps _ ((fun _ => _) _) => cbv beta
  | |- Legacy.keeps _ _ => progress unfold_methods
  end.

Ltac keeps_tac obligation :=
  unfold_methods; repeat (keeps_step obligation).





(** ** Lazy eigendecomposition *)






(** ** The time argument of [forecast] *)

(** C10 (as the code has it): once the eigenvalues, the right eigenfunctions
    and the modes can be read and restricted to [which] (the estimator is
    fitted, decomposed, its modes were evaluated and [which] is in range), a
    time argument that is an array of a dimension other than one makes
    [forecast] raise [ValueError("t must be a scalar or a vector.")]; a scalar
    [t] is treated as the one-element vector [[t]]. *)
Theorem forecast_time_argument (E : Legacy.externals) (X0 : ndarray)
  (which : option (list nat)) (w w1 : Legacy.world)
  (sel : list complex * carray * carray) (ndim : nat) (data : list float) :
  Legacy.select_spectrum X0 which w = (Ok sel, w1) ->
  ndim <> 1 ->
  Legacy.forecast E X0 (Legacy.t_array ndim data) which w
  = (Raise (ValueError "t must be a scalar or a vector."), w1)
  /\ forall x, Legacy.forecast E X0 (Legacy.t_scalar x) which w
               = Legacy.forecast E X0 (Legacy.t_array 1 [x]) which w.
Proof.
  intros Hsel Hdim. split.
  - unfold Legacy.forecast, except_AttributeError, bind. rewrite Hsel.
    unfold lift_result, Legacy.time_row.
    destruct (Nat.eqb_spec ndim 1) as [Heq|Hne]; [contradiction|]. reflexivity.
  - intros x. reflexivity.
Qed.

Lemma forecast_time_argument_witness :
  exists sel w1,
    Legacy.select_spectrum Examples.X2 None Examples.ready_ridge = (Ok sel, w1)
    /\ Legacy.forecast Reference.scipy Examples.X2 (Legacy.t_array 2 [0; 1; 2; 3]%float) None
                       Examples.ready_ridge
       = (Raise (ValueError "t must be a scalar or a vector."), w1).
Proof.
  destruct (Legacy.select_spectrum Examples.X2 None Examples.ready_ridge)
    as [[sel|e] w1] eqn:Hsel.
  2:{ exfalso. vm_compute in Hsel. discriminate Hsel. }
  exists sel, w1. split; [reflexivity|].
  apply (forecast_time_argument Reference.scipy Examples.X2 None Examples.ready_ridge w1 sel
           2 [0; 1; 2; 3]%float Hsel).
  discriminate.
Defined.

(** C10 fails as stated: after [fit] and [eig()], but without a call of
    [modes()], a two-dimensional time argument does not reach the test on
    [t]; the missing [_modes] attribute ends the call in an
    [AttributeError]. *)
Lemma forecast_after_eig_without_modes :
  (exists v, fst (Legacy.eig Reference.scipy Examples.fitted_ridge) = Ok v)
  /\ fst (Legacy.forecast Reference.scipy Examples.X2 (Legacy.t_array 2 [0; 1; 2; 3]%float)
                          None Examples.decomposed_ridge)
     = Raise (AttributeError "You must first fit the model and evaluate the modes with the 'self.modes' method.").
Proof.
  split; [eexists|]; vm_compute; reflexivity.
Qed.

(** ** The order of the eigenvalues *)

Section Hoare.

Lemma hoare_bind_skip {A B} (P : Legacy.world -> Prop) (m : M Legacy.world A)
  (f : A -> M Legacy.world B) (Q : B -> Legacy.world -> Prop) :
  (forall a, Legacy.hoare (fun _ => True) (f a) Q) -> Legacy.hoare P (bind m f) Q.
Proof.
  intros Hf w _. unfold bind. destruct (m w) as [[a|e] w1]; [|exact I].
  apply (Hf a w1 I).
Qed.

Lemma hoare_keeps {T A B} (mu : Legacy.world -> T) (c : T) (m : M Legacy.world A)
  (f : A -> M Legacy.world B) (Q : B -> Legacy.world -> Prop) :
  Legacy.keeps mu m ->
  (forall a, Legacy.hoare (fun w => mu w = c) (f a) Q) ->
  Legacy.hoare (fun w => mu w = c) (bind m f) Q.
Proof.
  intros Hm Hf w Hw. unfold bind. specialize (Hm w).
  destruct (m w) as [[a|e] w1]; [|exact I]. simpl in Hm.
  apply (Hf a w1). congruence.
Qed.

Lemma hoare_except_raise {A} (P : Legacy.world -> Prop) (body : M Legacy.world A)
  (e : exn) (Q : A -> Legacy.world -> Prop) :
  Legacy.hoare P body Q -> Legacy.hoare P (except_AttributeError body (raise e)) Q.
Proof.
  intros Hb w Hw. unfold except_AttributeError. specialize (Hb w Hw).
  destruct (body w) as [[a|e'] w1]; [exact Hb|].
  destruct (is_attribute_error e'); exact I.
Qed.

End Hoare.

Ltac evals_obligation := reflexivity.

Lemma bind_getattr {A B} (name : string) (proj : Legacy.estimator -> option A)
  (f : A -> M Legacy.world B) (w : Legacy.world) :
  bind (Legacy.getattr name proj) f w
  = match proj (Legacy.self w) with
    | Some a => f a w
    | None => (Raise (AttributeError ("'" ++ Legacy.class_name (Legacy.cls (Legacy.self w))
                                      ++ "' object has no attribute '" ++ name ++ "'")%string),
               w)
    end.
Proof. unfold bind, Legacy.getattr. destruct (proj (Legacy.self w)); reflexivity. Qed.

Lemma bind_lift_result {A B} (r : result A) (f : A -> M Legacy.world B) (w : Legacy.world) :
  bind (lift_result r) f w
  = match r with Ok a => f a w | Raise e => (Raise e, w) end.
Proof. unfold bind, lift_result. destruct r; reflexivity. Qed.

Lemma bind_setattr {B} (g : Legacy.estimator -> Legacy.estimator)
  (f : unit -> M Legacy.world B) (w : Legacy.world) :
  bind (Legacy.setattr g) f w = f tt (Legacy.mk_world (g (Legacy.self w)) (Legacy.out w)).
Proof. reflexivity. Qed.

Lemma hoare_ret {A} (P : Legacy.world -> Prop) (a : A) (Q : A -> Legacy.world -> Prop) :
  (forall w, P w -> Q a w) -> Legacy.hoare P (ret a) Q.
Proof. intros H w Hw. apply H, Hw. Qed.

Lemma sort_spectrum_post (E : Legacy.externals) (with_left : bool) :
  Legacy.hoare (fun _ => True) (Legacy.sort_spectrum E with_left)
    (fun _ w' => exists sorted,
         Legacy.sorted_spectrum E sorted /\ Legacy.stored_evals w' = Some sorted).
Proof.
  intros w _. unfold Legacy.sort_spectrum.
  rewrite bind_getattr.
  destruct (Legacy._evals (Legacy.self w)) as [ev|] eqn:He.
  2:{ exact I. }
  cbv zeta. rewrite bind_getattr, He, bind_lift_result.
  destruct (take ev (Legacy.by_descending_modulus E ev)) as [sorted|e] eqn:Ht; [|exact I].
  rewrite bind_setattr.
  apply (hoare_keeps Legacy.stored_evals (Some sorted)).
  - destruct with_left; keeps_tac evals_obligation.
  - intros _. apply hoare_ret. intros w' Hw'.
    exists sorted. split; [exists ev; exact Ht | exact Hw'].
  - reflexivity.
Qed.

Lemma hoare_after_sort (E : Legacy.externals) {B} (with_left : bool)
  (tail : list nat -> M Legacy.world B) (P : Legacy.world -> Prop)
  (Q : list complex -> B -> Legacy.world -> Prop) :
  (forall idx sorted,
      Legacy.sorted_spectrum E sorted ->
      Legacy.hoare (fun w => Legacy.stored_evals w = Some sorted) (tail idx) (Q sorted)) ->
  Legacy.hoare P (bind (Legacy.sort_spectrum E with_left) tail)
    (fun v w' => exists sorted, Legacy.sorted_spectrum E sorted /\ Q sorted v w').
Proof.
  intros Ht w _. unfold bind.
  pose proof (sort_spectrum_post E with_left w I) as Hs.
  destruct (Legacy.sort_spectrum E with_left w) as [[idx|e] w1]; [|exact I].
  destruct Hs as (sorted & Hsorted & Hst).
  specialize (Ht idx sorted Hsorted w1 Hst).
  destruct (tail idx w1) as [[v|e] w2]; [|exact I].
  exists sorted. split; assumption.
Qed.

Lemma return_spectrum_post (with_left : bool) (sorted : list complex) :
  Legacy.hoare (fun w => Legacy.stored_evals w = Some sorted)
    (Legacy.return_spectrum with_left)
    (fun v w' => Legacy.eig_evals v = sorted /\ Legacy.stored_evals w' = Some sorted).
Proof.
  intros w Hw. unfold Legacy.stored_evals in Hw.
  unfold Legacy.return_spectrum, bind, Legacy.getattr, ret. rewrite Hw.
  destruct with_left.
  - destruct (Legacy._lefuns (Legacy.self w)); [|exact I].
    destruct (Legacy._refuns (Legacy.self w)); [|exact I].
    split; [reflexivity | exact Hw].
  - destruct (Legacy._refuns (Legacy.self w)); [|exact I].
    split; [reflexivity | exact Hw].
Qed.

Ltac skip_prefix :=
  repeat lazymatch goal with
    | |- Legacy.hoare _ (bind (Legacy.sort_spectrum _ _) _) _ => fail
    | |- Legacy.hoare _ (bind _ _) _ => apply hoare_bind_skip; intros ?
    | |- Legacy.hoare _ (let _ := _ in _) _ => cbv zeta
    | |- Legacy.hoare _ ((fun _ => _) _) _ => cbv beta
    end.

Ltac walk_tail :=
  repeat lazymatch goal with
    | |- Legacy.hoare _ (Legacy.return_spectrum _) _ => fail
    | |- Legacy.hoare _ (bind _ _) _ =>
        apply hoare_keeps; [ keeps_tac evals_obligation | intros ? ]
    | |- Legacy.hoare _ (let _ := _ in _) _ => cbv zeta
    | |- Legacy.hoare _ ((fun _ => _) _) _ => cbv beta
    end.

Ltac sorted_body :=
  apply hoare_except_raise; skip_prefix;
  apply hoare_after_sort; intros idx sorted Hsorted;
  walk_tail; apply return_spectrum_post.

Lemma eig_bodies_sorted (E : Legacy.externals) :
  Legacy.hoare (fun _ => True) (Legacy.KernelRidgeRegression_eig E)
    (fun v w' => exists sorted, Legacy.sorted_spectrum E sorted
                 /\ Legacy.eig_evals v = sorted /\ Legacy.stored_evals w' = Some sorted)
  /\ Legacy.hoare (fun _ => True) (Legacy.TruncatedKernelRidgeRegression_eig E)
    (fun v w' => exists sorted, Legacy.sorted_spectrum E sorted
                 /\ Legacy.eig_evals v = sorted /\ Legacy.stored_evals w' = Some sorted)
  /\ Legacy.hoare (fun _ => True) (Legacy.LowRankKoopmanRegression_eig E)
    (fun v w' => exists sorted, Legacy.sorted_spectrum E sorted
                 /\ Legacy.eig_evals v = sorted /\ Legacy.stored_evals w' = Some sorted).
Proof.
  split; [|split].
  - unfold Legacy.KernelRidgeRegression_eig. sorted_body.
  - unfold Legacy.TruncatedKernelRidgeRegression_eig.
    apply hoare_bind_skip; intros _. sorted_body.
  - unfold Legacy.LowRankKoopmanRegression_eig. sorted_body.
Qed.

(** C2 (as the code has it): the eigenvalues that [eig()] returns, and that
    it stores in [_evals], are sorted by descending modulus, for every class of
    estimator: for all [i < j], [|evals[j]| <= |evals[i]|], as long as no
    modulus is a NaN.  (The claim does not hold of [eigvals], see below.) *)
Theorem eig_sorts_by_modulus (E : Legacy.externals) (w w' : Legacy.world)
  (v : Legacy.eig_value) :
  Legacy.eig E w = (Ok v, w') ->
  (forall z, In z (Legacy.eig_evals v) -> is_nan (Legacy.c_abs E z) = false) ->
  descending (map (Legacy.c_abs E) (Legacy.eig_evals v))
  /\ Legacy._evals (Legacy.self w') = Some (Legacy.eig_evals v).
Proof.
  intros Heig Hnan.
  destruct (eig_bodies_sorted E) as (Hk & Ht & Hl).
  assert (Hpost : exists sorted, Legacy.sorted_spectrum E sorted
                    /\ Legacy.eig_evals v = sorted
                    /\ Legacy.stored_evals w' = Some sorted).
  { unfold Legacy.eig, bind, modify, get in Heig. simpl in Heig.
    set (w1 := Legacy.emit (Call "eig") w) in *.
    destruct (Legacy.cls (Legacy.self w)).
    - specialize (Hk w1 I). rewrite Heig in Hk. exact Hk.
    - specialize (Ht w1 I). rewrite Heig in Ht. exact Ht.
    - specialize (Hl w1 I). rewrite Heig in Hl. exact Hl.
    - specialize (Hl w1 I). rewrite Heig in Hl. exact Hl. }
  destruct Hpost as (sorted & (evals & Htake) & Hv & Hst).
  subst sorted. split; [|exact Hst].
  apply (take_by_descending_modulus (Legacy.c_abs E) evals _ Htake Hnan).
Qed.

Lemma eig_sorts_by_modulus_witness :
  exists v w',
    Legacy.eig Reference.scipy Examples.fitted_ridge_12 = (Ok v, w')
    /\ Legacy.eig_evals v = [(2, 0); (1, 0)]%float
    /\ descending (map Reference.c_abs (Legacy.eig_evals v)).
Proof.
  destruct (Legacy.eig Reference.scipy Examples.fitted_ridge_12) as [[v|e] w'] eqn:Heig.
  2:{ exfalso. vm_compute in Heig. discriminate Heig. }
  assert (Hv : Legacy.eig_evals v = [(2, 0); (1, 0)]%float).
  { vm_compute in Heig. inversion Heig. reflexivity. }
  exists v, w'. split; [reflexivity|]. split; [exact Hv|].
  apply (eig_sorts_by_modulus Reference.scipy Examples.fitted_ridge_12 w' v Heig).
  rewrite Hv. intros z [<-|[<-|[]]]; vm_compute; reflexivity.
Defined.

(** C2 fails as stated for [eigvals]: fitted on [X = I], [Y = diag(1, 2)]
    with the linear kernel, [eigvals()] hands back the eigenvalues of the
    pencil [(K_YX, K_X) = (diag(1, 2), I)] as the solver produced them,
    [1, 2], and [|1| < |2|]. *)
Lemma eigvals_is_not_sorted :
  fst (Legacy.KernelRidgeRegression_eigvals Reference.scipy None Examples.fitted_ridge_12)
  = Ok [(1, 0); (2, 0)]%float
  /\ ~ descending (map Reference.c_abs [(1, 0); (2, 0)]%float).
Proof.
  split; [vm_compute; reflexivity|].
  intros H. specialize (H 0 1 ltac:(simpl; lia)). vm_compute in H. discriminate H.
Qed.

(** ** Parameter validation and fitting *)

Lemma check_backend_solver_accepts (self : Base.BaseKoopmanEstimator) :
  Base._check_backend_solver_compatibility self = Ok tt
  <-> (Base.backend self = "numpy" \/ Base.backend self = "keops")
      /\ (Base.svd_solver self = "full" \/ Base.svd_solver self = "arnoldi"
          \/ Base.svd_solver self = "randomized")
      /\ (Base.svd_solver self = "randomized" ->
          (0 <= Base.iterated_power self /\ 0 <= Base.n_oversamples self)%Z)
      /\ ~ (Base.svd_solver self = "full" /\ Base.backend self = "keops").
Proof.
  unfold Base._check_backend_solver_compatibility, Base.str_in; simpl.
  destruct (String.eqb_spec (Base.backend self) "numpy") as [Hn|Hn],
           (String.eqb_spec (Base.backend self) "keops") as [Hk|Hk],
           (String.eqb_spec (Base.svd_solver self) "full") as [Hf|Hf],
           (String.eqb_spec (Base.svd_solver self) "arnoldi") as [Ha|Ha],
           (String.eqb_spec (Base.svd_solver self) "randomized") as [Hr|Hr],
           (Z.ltb_spec (Base.iterated_power self) 0) as [Hi|Hi],
           (Z.ltb_spec (Base.n_oversamples self) 0) as [Ho|Ho];
    simpl; (split; intros HH;
    [ first [ discriminate HH
            | split; [auto | split; [auto 6 | split;
                [ intros; first [split; lia | congruence]
                | intros [? ?]; congruence ]]] ]
    | first [ reflexivity
            | exfalso; destruct HH as (H1 & H2 & H3 & H4);
              intuition (try congruence; try lia) ] ]).
Qed.

Lemma check_backend_solver_raises (self : Base.BaseKoopmanEstimator) (e : exn) :
  Base._check_backend_solver_compatibility self = Raise e -> exists msg, e = ValueError msg.
Proof.
  unfold Base._check_backend_solver_compatibility.
  repeat match goal with
         | |- (if ?b then _ else _) = _ -> _ => destruct b
         end;
    intros H; inversion H; eauto.
Qed.

Lemma init_kernels_rejects (X0 Y0 : ndarray) (b : string) (e : exn) (w : Legacy.world) :
  Utils.parse_backend b X0 = Raise e ->
  Legacy._init_kernels X0 Y0 b w
  = (Raise e,
     Legacy.mk_world (Legacy.set_Y Y0 (Legacy.set_X X0 (Legacy.self w))) (Legacy.out w)).
Proof.
  intros H. unfold Legacy._init_kernels.
  rewrite !bind_setattr, bind_lift_result, H. reflexivity.
Qed.

Lemma ridge_fits_never_raise (X0 Y0 : ndarray) (b : string) (w : Legacy.world) :
  fst (Legacy.KernelRidgeRegression_fit X0 Y0 b w) = Ok tt
  /\ Legacy.kernels (snd (Legacy.KernelRidgeRegression_fit X0 Y0 b w))
     = 3 + Legacy.kernels w
  /\ fst (Legacy.TruncatedKernelRidgeRegression_fit X0 Y0 b w) = Ok tt
  /\ Legacy.kernels (snd (Legacy.TruncatedKernelRidgeRegression_fit X0 Y0 b w))
     = 3 + Legacy.kernels w.
Proof.
  unfold Legacy.KernelRidgeRegression_fit, Legacy.TruncatedKernelRidgeRegression_fit.
  destruct (b =? "cpu")%string, (b =? "keops")%string; simpl;
    repeat split; try reflexivity;
    unfold Legacy.kernels, Legacy.kernel_evals, log_event; simpl;
    rewrite ?filter_app, ?length_app; simpl; lia.
Qed.

(** C9 (as the code has it).  [_check_backend_solver_compatibility] accepts
    exactly the combinations with a backend among ['numpy'] and ['keops'], a
    solver among ['full'], ['arnoldi'] and ['randomized'], non-negative
    [iterated_power] and [n_oversamples] when the solver is ['randomized'], and
    not both ['full'] and ['keops']; it rejects the others with a [ValueError]
    and reads neither the rank nor the regularization.  In the legacy
    estimators, a fit that hands the caller's backend to [_init_kernels], as
    the principal-component one does, raises the [ValueError] of
    [parse_backend] on an unrecognized backend before any Gram matrix is
    computed; the two ridge estimators never reject a backend, they warn and
    go on with their own; a regularization that is not a scalar is refused by
    the constructor of the truncated estimator. *)
Theorem validation_as_coded :
  (forall self,
      Base._check_backend_solver_compatibility self = Ok tt
      <-> (Base.backend self = "numpy" \/ Base.backend self = "keops")
          /\ (Base.svd_solver self = "full" \/ Base.svd_solver self = "arnoldi"
              \/ Base.svd_solver self = "randomized")
          /\ (Base.svd_solver self = "randomized" ->
              (0 <= Base.iterated_power self /\ 0 <= Base.n_oversamples self)%Z)
          /\ ~ (Base.svd_solver self = "full" /\ Base.backend self = "keops"))
  /\ (forall self e,
        Base._check_backend_solver_compatibility self = Raise e ->
        exists msg, e = ValueError msg)
  /\ (forall E X0 Y0 b w,
        b <> "auto" -> b <> "cpu" -> b <> "keops" ->
        exists msg w',
          Legacy.PrincipalComponentRegression_fit E X0 Y0 b w = (Raise (ValueError msg), w')
          /\ Legacy.out w' = Legacy.out w)
  /\ (forall X0 Y0 b w,
        fst (Legacy.KernelRidgeRegression_fit X0 Y0 b w) = Ok tt
        /\ fst (Legacy.TruncatedKernelRidgeRegression_fit X0 Y0 b w) = Ok tt)
  /\ (forall k r reg,
        (forall x, reg <> Legacy.reg_scalar x) ->
        exists msg,
          Legacy.TruncatedKernelRidgeRegression_init k r reg = Raise (AssertionError msg)).
Proof.
  split; [exact check_backend_solver_accepts|].
  split; [exact check_backend_solver_raises|].
  split; [|split].
  - intros E X0 Y0 b w Ha Hc Hk.
    pose proof (parse_backend_unrecognized b X0 Ha Hc Hk) as Hmsg.
    eexists. eexists. split.
    + unfold Legacy.PrincipalComponentRegression_fit. unfold bind at 1.
      rewrite (init_kernels_rejects X0 Y0 b _ w Hmsg). reflexivity.
    + reflexivity.
  - intros X0 Y0 b w.
    destruct (ridge_fits_never_raise X0 Y0 b w) as (H1 & _ & H2 & _). auto.
  - intros k r reg Hreg. destruct reg as [|x|v]; simpl; eauto.
    exfalso. apply (Hreg x). reflexivity.
Qed.

(** C9 fails as stated: [KernelRidgeRegression.fit] with the unrecognized
    backend ['gpu'] returns normally after computing its three Gram matrices,
    and the validation accepts a negative oversampling and a negative rank
    when the solver is ['arnoldi']. *)
Lemma invalid_parameters_accepted :
  fst (Legacy.KernelRidgeRegression_fit Examples.X2 Examples.Y21 "gpu" Examples.new_ridge)
  = Ok tt
  /\ Legacy.kernels (snd (Legacy.KernelRidgeRegression_fit Examples.X2 Examples.Y21 "gpu"
                            Examples.new_ridge)) = 3
  /\ Base._check_backend_solver_compatibility (Base.mk_base "numpy" "arnoldi" 0 (-1) (-3))
     = Ok tt.
Proof. repeat split; vm_compute; reflexivity. Qed.

(** ** The rank of the principal-component estimator *)

Ltac rank_obligation := reflexivity.

(** Every run of [PrincipalComponentRegression.fit] that returns leaves the
    stored rank as it was: the branch that would reduce it raises first. *)
Lemma pcr_fit_keeps_rank (E : Legacy.externals) (X0 Y0 : ndarray) (b : string) :
  Legacy.keeps_ok Legacy.stored_rank (Legacy.PrincipalComponentRegression_fit E X0 Y0 b).
Proof.
  unfold Legacy.PrincipalComponentRegression_fit.
  apply keeps_ok_bind; [apply keeps_ok_of_keeps; keeps_tac rank_obligation | intros _].
  apply keeps_ok_bind; [apply keeps_ok_of_keeps; keeps_tac rank_obligation | intros kx].
  cbv zeta.
  apply keeps_ok_bind; [apply keeps_ok_of_keeps; keeps_tac rank_obligation | intros K].
  apply keeps_ok_bind; [apply keeps_ok_of_keeps; keeps_tac rank_obligation | intros b'].
  apply keeps_ok_bind; [apply keeps_ok_of_keeps; keeps_tac rank_obligation | intros sv].
  cbv zeta.
  destruct (forallb _ _).
  - apply keeps_ok_of_keeps; keeps_tac rank_obligation.
  - unfold Legacy.slice_rows_to_mask.
    apply keeps_ok_bind; [apply (keeps_ok_raises Legacy.stored_rank (A := ndarray) (B := unit)) | ].
    intros a w x w' H. discriminate H.
Qed.

(** C1, at the failing input: fitted with requested rank 2 on samples whose
    Gram matrix is [diag(1, 0)], the principal-component estimator finds the
    singular value 0 below its threshold, and the branch that is to reduce the
    rank raises a [TypeError] at [V[:_test]]; the stored rank is still 2 and
    no factor is stored. *)
Theorem pcr_fit_rank_deficient_raises :
  let run := Legacy.PrincipalComponentRegression_fit Reference.scipy Examples.X10
               Examples.Y21 "cpu" Examples.new_pcr in
  Legacy.K_X (Legacy.self (snd run)) = Some (mkarr 2 [[1; 0]; [0; 0]]%float)
  /\ fst run = Raise (TypeError "only integer scalar arrays can be converted to a scalar index")
  /\ Legacy.rank (Legacy.self (snd run)) = Some 2%Z
  /\ Legacy.U (Legacy.self (snd run)) = None
  /\ Legacy.V (Legacy.self (snd run)) = None.
Proof. repeat split; vm_compute; reflexivity. Qed.

(** * Further properties of the code *)

(** ** Running a computation of the monad backwards *)

Lemma bind_ok {S A B} (m : M S A) (f : A -> M S B) (s s' : S) (b : B) :
  bind m f s = (Ok b, s') ->
  exists a s1, m s = (Ok a, s1) /\ f a s1 = (Ok b, s').
Proof.
  unfold bind. destruct (m s) as [[a|e] s1]; [|discriminate].
  intros H. exists a, s1. split; [reflexivity | exact H].
Qed.

Lemma lift_result_ok {S A} (r : result A) (s s' : S) (a : A) :
  lift_result r s = (Ok a, s') -> r = Ok a /\ s' = s.
Proof. unfold lift_result. intros H; inversion H; auto. Qed.

Lemma ret_ok {S A} (a b : A) (s s' : S) :
  ret a s = (Ok b, s') -> b = a /\ s' = s.
Proof. unfold ret. intros H; inversion H; auto. Qed.

(** ** Backend selection, continued *)

(** X1: whatever [parse_backend] returns is ['cpu'] or ['keops'], and
    parsing that result again, on any data, returns it unchanged: a backend
    that was resolved once can be handed on to [modified_QR] or to a kernel
    without being resolved differently there. *)
Theorem parse_backend_fixed_point (backend b : string) (X X' : ndarray) :
  Utils.parse_backend backend X = Ok b ->
  (b = "cpu" \/ b = "keops") /\ Utils.parse_backend b X' = Ok b.
Proof.
  unfold Utils.parse_backend.
  destruct (String.eqb_spec backend "keops") as [->|Hk].
  { intros H; inversion H; auto. }
  destruct (String.eqb_spec backend "cpu") as [->|Hc].
  { intros H; inversion H; auto. }
  destruct (backend =? "auto").
  - destruct (shape0 X <? 2000)%nat; intros H; inversion H; auto.
  - discriminate.
Qed.

Lemma parse_backend_fixed_point_witness :
  ("cpu" = "cpu" \/ "cpu" = "keops")
  /\ Utils.parse_backend "cpu" Examples.A_piv = Ok "cpu".
Proof.
  apply (parse_backend_fixed_point "auto" "cpu" Examples.X2 Examples.A_piv).
  reflexivity.
Defined.

(** ** [modified_QR]: where it is defined and what a zero column does *)

Lemma fsum_zeros (l : list float) :
  Forall (fun x => x = 0%float) l -> fsum l = 0%float.
Proof.
  unfold fsum. induction 1 as [|x l Hx Hl IH]; simpl; [reflexivity|].
  subst x. exact IH.
Qed.

Lemma dot_zeros (u v : vec) :
  Forall (fun x => x = 0%float) u ->
  Forall (fun x => x = 0%float \/ x = 1%float) v ->
  dot u v = 0%float.
Proof.
  intros Hu Hv. unfold dot. apply fsum_zeros.
  revert v Hv. induction Hu as [|x u Hx Hu IH]; intros v Hv; simpl; [constructor|].
  destruct Hv as [|y v Hy Hv]; simpl; constructor.
  - subst x. destruct Hy as [-> | ->]; reflexivity.
  - apply IH, Hv.
Qed.

Lemma Forall_repeat {A} (P : A -> Prop) (x : A) (n : nat) : P x -> Forall P (repeat x n).
Proof. intros H. induction n; simpl; constructor; auto. Qed.

Lemma unit_vec_entries (n j : nat) :
  Forall (fun x => x = 0%float \/ x = 1%float) (unit_vec n j).
Proof.
  unfold unit_vec. apply Forall_forall. intros x Hx.
  apply in_map_iff in Hx. destruct Hx as (i & <- & _).
  destruct (Nat.eqb i j); auto.
Qed.

(** The squared norm of a zero column in the Euclidean inner product is the
    binary64 zero. *)
Lemma sq_norm_zero (dim : nat) : Utils.sq_norm (eye dim) (vzeros dim) = 0%float.
Proof.
  unfold Utils.sq_norm, vecmat, eye; simpl.
  apply dot_zeros.
  - apply Forall_forall. intros x Hx.
    apply in_map_iff in Hx. destruct Hx as (c & <- & Hc).
    apply in_map_iff in Hc. destruct Hc as (j & <- & _).
    apply dot_zeros; [apply Forall_repeat; reflexivity | apply unit_vec_entries].
  - apply Forall_forall. intros x Hx. apply repeat_spec in Hx. auto.
Qed.

Lemma minus_diag_zeros (X : list vec) :
  Forall (Forall (fun x => x = 0%float)) X ->
  Forall (Forall (fun x => x = 0%float)) (minus_diag X).
Proof.
  intros HX. unfold minus_diag. apply Forall_forall. intros c Hc.
  apply in_map_iff in Hc. destruct Hc as ([j col] & <- & Hin).
  apply in_combine_r in Hin. simpl.
  rewrite Forall_forall in HX. specialize (HX col Hin). rewrite Forall_forall in HX.
  apply Forall_forall. intros x Hx.
  apply in_map_iff in Hx. destruct Hx as ([i y] & <- & Hy).
  apply in_combine_r in Hy. simpl. rewrite (HX y Hy).
  destruct (Nat.eqb i j); reflexivity.
Qed.

Lemma fold_fmax_zeros (l : list float) :
  Forall (fun x => x = 0%float) l -> fold_left fmax l 0%float = 0%float.
Proof. induction 1 as [|x l Hx Hl IH]; simpl; [reflexivity|]. subst x. exact IH. Qed.

Lemma norm1_zeros (X : list vec) :
  X <> [] -> Forall (Forall (fun x => x = 0%float)) X -> norm1 X = Ok 0%float.
Proof.
  intros Hne HX. unfold norm1.
  assert (Hs : Forall (fun x => x = 0%float) (map (fun c => fsum (map PrimFloat.abs c)) X)).
  { apply Forall_forall. intros s Hs. apply in_map_iff in Hs. destruct Hs as (c & <- & Hc).
    rewrite Forall_forall in HX. specialize (HX c Hc).
    apply fsum_zeros. apply Forall_forall. intros a Ha.
    apply in_map_iff in Ha. destruct Ha as (x & <- & Hx).
    rewrite Forall_forall in HX. rewrite (HX x Hx). reflexivity. }
  destruct X as [|c t]; [congruence|]. simpl in *.
  inversion Hs as [|s l Hs0 Hl]; subst. rewrite Hs0.
  f_equal. apply fold_fmax_zeros. exact Hl.
Qed.

Lemma Forall_set_nth {A} (P : A -> Prop) (i : nat) (x : A) (l : list A) :
  P x -> Forall P l -> Forall P (set_nth i x l).
Proof.
  intros Hx Hl. revert i. induction Hl as [|y l Hy Hl IH]; intros i; destruct i; simpl;
    constructor; auto.
Qed.

Lemma parse_backend_ok (backend : string) (X : ndarray) :
  backend = "auto" \/ backend = "cpu" \/ backend = "keops" ->
  exists b, Utils.parse_backend backend X = Ok b.
Proof.
  unfold Utils.parse_backend.
  intros [-> | [-> | ->]]; cbn; eauto.
  destruct (shape0 X <=? 1999)%nat; eauto.
Qed.

Lemma default_weight (b : string) (dim : nat) :
  (if b =? "keops" then identity dim else eye dim) = eye dim.
Proof. destruct (b =? "keops"); reflexivity. Qed.

(** With at least one column and a weight of the right shape the loop ends
    normally and the norm of the off-diagonal part of [R] is defined. *)
Lemma modified_QR_returns (A : ndarray) (backend b : string) (M0 : option ndarray)
  (out : list event) :
  Utils.parse_backend backend A = Ok b ->
  0 < shape1 A ->
  (forall m, M0 = Some m -> shape0 m = shape0 A /\ shape1 m = shape0 A) ->
  exists Q err,
    Utils.modified_QR A backend M0 out
    = (Ok Q, (out ++ [Print "orthogonality error:" [err]])%list).
Proof.
  intros Hb Hw HM.
  set (M_ := match M0 with Some m => m | None => eye (shape0 A) end).
  assert (HM_ : shape0 M_ = shape0 A /\ shape1 M_ = shape0 A).
  { subst M_. destruct M0 as [m|]; [now apply HM | apply eye_shape]. }
  assert (Hinit : Utils.qr_inv (shape1 A) (Utils.qr_init A)).
  { unfold Utils.qr_inv, Utils.qr_init, zeros; simpl. rewrite repeat_length. auto. }
  destruct (qr_loop_runs M_ (shape0 A) (shape1 A) HM_ (shape1 A) 0 (Utils.qr_init A)
              (shape1 A) eq_refl Hinit)
    as (r & st & _ & _ & (HQ & HR & HP) & Hres).
  assert (Hloop : exists stf,
             Utils.qr_loop M_ (shape0 A) (shape1 A) (seq 0 (shape1 A)) (Utils.qr_init A) (shape1 A)
             = Ok (stf, r)
             /\ List.length (Utils.qr_R stf) = shape1 A).
  { destruct Hres as [(-> & H) | (Hlt & Hp & H)].
    - exists st. auto.
    - exists (Utils.break_step M_ r st). split; [exact H|].
      simpl. now rewrite set_nth_length. }
  destruct Hloop as (stf & Hloop & HRf).
  destruct (norm1_defined (minus_diag (Utils.qr_R stf))) as [err Herr].
  { intros Hnil. apply (f_equal (@List.length vec)) in Hnil.
    rewrite minus_diag_length, HRf in Hnil. simpl in Hnil. lia. }
  eexists. exists err.
  unfold Utils.modified_QR, bind, lift_result, print, modify, ret, log_event.
  rewrite Hb.
  replace (match M0 with
           | Some m => m
           | None => if (b =? "keops")%string then identity (shape0 A) else eye (shape0 A)
           end) with M_
    by (subst M_; destruct M0; [reflexivity | now rewrite default_weight]).
  rewrite Hloop. simpl. rewrite Herr. reflexivity.
Qed.

(** X2: [modified_QR] returns normally exactly when the backend is one of
    ['auto'], ['cpu'], ['keops'], the matrix has at least one column and the
    weight [M], when given, is square of the size of a column.  It then
    prints one line, the orthogonality error.  In every other case (an
    unrecognized backend, a matrix without columns, whose empty [R] has no
    1-norm, or a weight of another shape) it raises a [ValueError] and prints
    nothing. *)
Theorem modified_QR_domain (A : ndarray) (backend : string) (M0 : option ndarray)
  (out : list event) :
  let recognised := backend = "auto" \/ backend = "cpu" \/ backend = "keops" in
  let well_shaped := forall m, M0 = Some m -> shape0 m = shape0 A /\ shape1 m = shape0 A in
  ((recognised /\ 0 < shape1 A /\ well_shaped) ->
   exists Q err,
     Utils.modified_QR A backend M0 out
     = (Ok Q, (out ++ [Print "orthogonality error:" [err]])%list))
  /\ (~ (recognised /\ 0 < shape1 A /\ well_shaped) ->
      exists msg, Utils.modified_QR A backend M0 out = (Raise (ValueError msg), out)).
Proof.
  intros recognised well_shaped. split.
  - intros (Hr & Hw & HM).
    destruct (parse_backend_ok backend A Hr) as [b Hb].
    exact (modified_QR_returns A backend b M0 out Hb Hw HM).
  - intros Hnot.
    destruct (String.eqb_spec backend "auto") as [Ha|Ha];
      [| destruct (String.eqb_spec backend "cpu") as [Hc|Hc];
         [| destruct (String.eqb_spec backend "keops") as [Hk|Hk]]].
    4:{ eexists. unfold Utils.modified_QR, bind, lift_result.
        rewrite (parse_backend_unrecognized backend A Ha Hc Hk). reflexivity. }
    all: assert (Hr : recognised) by (unfold recognised; auto);
      destruct (parse_backend_ok backend A Hr) as [b Hb];
      unfold Utils.modified_QR, bind, lift_result; rewrite Hb;
      destruct (shape1 A) as [|n] eqn:Hn;
      [ eexists; simpl; unfold Utils.qr_init; rewrite Hn; simpl; reflexivity | ];
      destruct M0 as [m|];
      [ | exfalso; apply Hnot; split; [exact Hr | split; [lia | intros m Hm; discriminate Hm]] ];
      destruct (Nat.eqb (shape0 m) (shape0 A) && Nat.eqb (shape1 m) (shape0 A)) eqn:Hs;
      [ exfalso; apply Hnot; split; [exact Hr | split; [lia|]];
        intros m' Hm'; inversion Hm'; subst m';
        apply andb_true_iff in Hs; destruct Hs as [H0 H1];
        apply Nat.eqb_eq in H0, H1; auto
      | eexists; cbn [seq Utils.qr_loop]; unfold Utils.qr_step; rewrite Hs; simpl; reflexivity ].
Qed.

(** X3: when the first column of [A] is zero, [modified_QR] with the default
    weight stops at step 0 and returns a matrix without columns, whatever the
    other columns are: nothing is pivoted, so the columns after the first are
    never looked at.  The orthogonality error it prints is 0. *)
Theorem modified_QR_zero_leading_column (A : ndarray) (backend b : string)
  (rest : list vec) (out : list event) :
  Utils.parse_backend backend A = Ok b ->
  columns A = vzeros (shape0 A) :: rest ->
  Utils.modified_QR A backend None out
  = (Ok (mkarr (shape0 A) []),
     (out ++ [Print "orthogonality error:" [0%float]])%list).
Proof.
  intros Hb Hcols.
  set (dim := shape0 A) in *.
  assert (Hvecs : shape1 A = S (List.length rest)) by (unfold shape1; now rewrite Hcols).
  assert (Hk : 0 < List.length (Utils.qr_Q (Utils.qr_init A)))
    by (unfold Utils.qr_init; simpl; rewrite Hcols; simpl; lia).
  assert (Hpivot : Utils.pivot_norm (eye dim) 0 (Utils.qr_init A) = 0%float).
  { rewrite (pivot_norm_column (eye dim) 0 (Utils.qr_init A) Hk).
    unfold Utils.qr_init; simpl. rewrite Hcols; simpl.
    fold (vzeros dim). rewrite sq_norm_zero. reflexivity. }
  assert (Hloop : Utils.qr_loop (eye dim) dim (shape1 A) (seq 0 (shape1 A)) (Utils.qr_init A)
                    (shape1 A)
                  = Ok (Utils.break_step (eye dim) 0 (Utils.qr_init A), 0)).
  { rewrite Hvecs at 2. cbn [seq Utils.qr_loop].
    rewrite (qr_step_eq (eye dim) dim (shape1 A) (eye_shape dim) 0 (Utils.qr_init A) Hk).
    rewrite Hpivot. reflexivity. }
  assert (HR : Forall (Forall (fun x => x = 0%float))
                 (Utils.qr_R (Utils.break_step (eye dim) 0 (Utils.qr_init A)))).
  { unfold Utils.break_step. rewrite Hpivot.
    cbn [Utils.qr_R Utils.qr_init zeros columns].
    assert (H0 : Forall (Forall (fun x => x = 0%float)) (repeat (vzeros (shape1 A)) (shape1 A))).
    { apply Forall_repeat. apply Forall_repeat. reflexivity. }
    apply Forall_set_nth; [|exact H0].
    apply Forall_set_nth; [reflexivity|].
    rewrite Forall_forall in H0. apply H0. rewrite Hvecs. left. reflexivity. }
  assert (Hne : minus_diag (Utils.qr_R (Utils.break_step (eye dim) 0 (Utils.qr_init A))) <> []).
  { intros Hnil. apply (f_equal (@List.length vec)) in Hnil.
    rewrite minus_diag_length in Hnil. unfold Utils.break_step in Hnil.
    cbn [Utils.qr_R Utils.qr_init zeros columns] in Hnil.
    rewrite set_nth_length, repeat_length, Hvecs in Hnil. discriminate Hnil. }
  unfold Utils.modified_QR, bind, lift_result, print, modify, ret, log_event.
  rewrite Hb. fold dim. rewrite default_weight, Hloop. cbn [fst snd].
  rewrite (norm1_zeros _ Hne (minus_diag_zeros _ HR)). reflexivity.
Qed.

Lemma modified_QR_zero_leading_column_witness :
  Utils.modified_QR Examples.A_zero_first "cpu" None []
  = (Ok (mkarr 2 []), [Print "orthogonality error:" [0%float]]).
Proof.
  apply (modified_QR_zero_leading_column Examples.A_zero_first "cpu" "cpu" [[1; 0]%float] []);
    reflexivity.
Defined.

(** ** [rSVD]: the size of what it returns, its failure on a negative
    width, and its use of the random generator *)

Lemma slice_to_length {A} (r : Z) (l : list A) :
  (0 <= r)%Z -> (Z.of_nat (List.length (slice_to r l)) <= r)%Z.
Proof.
  intros Hr. unfold slice_to.
  destruct (Z.leb_spec 0 r); [|lia].
  rewrite length_firstn. lia.
Qed.

Lemma matmul_shape1 (A B : ndarray) : shape1 (matmul A B) = shape1 B.
Proof. unfold matmul, shape1; simpl. apply length_map. Qed.

(** X4: with a non-negative [rank], whatever [rSVD] returns holds at most
    [rank] eigenvalues, and [U] and [V] have the same number of columns, at
    most [rank]; this is so whatever the sketch, the solver and the
    eigensolver produced, and however many columns [modified_QR] kept. *)
Theorem rSVD_at_most_rank (rng : Type) (E : Utils.linalg rng) (Kx Ky : ndarray)
  (reg : float) (r powers offset : Z) (tol : float) (w w' : Utils.world rng)
  (U V : ndarray) (svals2 : vec) :
  (0 <= r)%Z ->
  Utils.rSVD E Kx Ky reg (Some r) powers offset tol w = (Ok (U, V, svals2), w') ->
  (Z.of_nat (List.length svals2) <= r)%Z
  /\ (Z.of_nat (shape1 U) <= r)%Z
  /\ shape1 V = shape1 U.
Proof.
  intros Hr H. unfold Utils.rSVD in H.
  apply bind_ok in H. destruct H as (f & w1 & Hf & H).
  apply bind_ok in H. destruct H as (u & w2 & _ & H).
  apply ret_ok in H. destruct H as [Heq _]. subst f.
  unfold Utils.rSVD_factors in Hf.
  apply bind_ok in Hf. destruct Hf as (r' & w0 & Hr' & Hf).
  apply ret_ok in Hr'. destruct Hr' as [-> _].
  repeat (apply bind_ok in Hf; destruct Hf as (? & ? & _ & Hf)).
  apply ret_ok in Hf. destruct Hf as [Heq _]. inversion Heq; subst U V svals2.
  rewrite !matmul_shape1. unfold shape1 at 1; cbn [columns].
  split; [|split; [|reflexivity]]; apply slice_to_length; exact Hr.
Qed.

Lemma rSVD_at_most_rank_witness :
  exists U V svals2 w',
    Utils.rSVD Reference.lapack Examples.Kx1 Examples.Ky1_big 1 (Some 1%Z) 2 0
               Utils.gep_tol Examples.pool1 = (Ok (U, V, svals2), w')
    /\ (Z.of_nat (List.length svals2) <= 1)%Z
    /\ (Z.of_nat (shape1 U) <= 1)%Z
    /\ shape1 V = shape1 U.
Proof.
  destruct (Utils.rSVD Reference.lapack Examples.Kx1 Examples.Ky1_big 1 (Some 1%Z) 2 0
              Utils.gep_tol Examples.pool1) as [[[[U V] svals2]|e] w'] eqn:H.
  2:{ exfalso. vm_compute in H. discriminate H. }
  exists U, V, svals2, w'. split; [reflexivity|].
  apply (rSVD_at_most_rank (list float) Reference.lapack Examples.Kx1 Examples.Ky1_big
           1%float 1 2 0 Utils.gep_tol Examples.pool1 w' U V svals2); [lia | exact H].
Defined.

(** X5: when [rank + offset] is negative, [rSVD] raises the [ValueError] of
    [np.random.randn] for a negative dimension before anything else happens:
    nothing is printed and the random generator is left as it was. *)
Theorem rSVD_negative_width (rng : Type) (E : Utils.linalg rng) (Kx Ky : ndarray)
  (reg : float) (r powers offset : Z) (tol : float) (w : Utils.world rng) :
  (r + offset < 0)%Z ->
  Utils.rSVD E Kx Ky reg (Some r) powers offset tol w
  = (Raise (ValueError "negative dimensions are not allowed"), w).
Proof.
  intros Hl. unfold Utils.rSVD, Utils.rSVD_factors, bind, ret, raise.
  destruct (Z.ltb_spec (r + offset) 0); [reflexivity | lia].
Qed.

Lemma rSVD_negative_width_witness :
  Utils.rSVD Reference.lapack Examples.Kx1 Examples.Ky1 1 (Some 1%Z) 2 (-5)
             Utils.gep_tol Examples.pool1
  = (Raise (ValueError "negative dimensions are not allowed"), Examples.pool1).
Proof.
  apply (rSVD_negative_width (list float) Reference.lapack Examples.Kx1 Examples.Ky1
           1%float 1 2 (-5) Utils.gep_tol Examples.pool1).
  reflexivity.
Defined.

Lemma gen_bind {rng A B} (m : M (Utils.world rng) A) (f : A -> M (Utils.world rng) B) :
  (forall w, Utils.gen (snd (m w)) = Utils.gen w) ->
  (forall a w, Utils.gen (snd (f a w)) = Utils.gen w) ->
  forall w, Utils.gen (snd (bind m f w)) = Utils.gen w.
Proof.
  intros Hm Hf w. unfold bind. specialize (Hm w).
  destruct (m w) as [[a|e] w1]; simpl in *; [|exact Hm].
  rewrite <- Hm. apply Hf.
Qed.

Lemma gen_printing {rng A} (m : M (list event) A) (w : Utils.world rng) :
  Utils.gen (snd (Utils.printing m w)) = Utils.gen w.
Proof. unfold Utils.printing. destruct (m (Utils.out w)); reflexivity. Qed.

Lemma gen_bind_eq {rng A B} (m : M (Utils.world rng) A) (f : A -> M (Utils.world rng) B)
  (w : Utils.world rng) (g : rng) :
  Utils.gen (snd (m w)) = g ->
  (forall a w1, Utils.gen (snd (f a w1)) = Utils.gen w1) ->
  Utils.gen (snd (bind m f w)) = g.
Proof.
  intros Hm Hf. unfold bind.
  destruct (m w) as [[a|e] w1]; simpl in *; [|exact Hm].
  rewrite <- Hm. apply Hf.
Qed.

(** Breaking down a goal that says a computation leaves the generator
    alone. *)
Ltac gen_step :=
  lazymatch goal with
  | |- forall w, Utils.gen (snd (bind _ _ w)) = _ => apply gen_bind; [ | intros ? ]
  | |- forall w, Utils.gen (snd (Utils.printing _ w)) = _ => intros ?; apply gen_printing
  | |- forall w, Utils.gen (snd ((if ?b then _ else _) w)) = _ => destruct b
  | |- forall w, Utils.gen (snd ((let _ := _ in _) w)) = _ => cbv zeta
  | |- forall w, Utils.gen (snd (_ w)) = _ => intros ?; reflexivity
  end.

(** X6: the sketch is the only thing [rSVD] draws.  With a non-negative
    width [rank + offset], the random generator is left in the state that the
    single call [randn(n, rank + offset)] puts it in, whether [rSVD] then
    returns or raises; the power rounds, the solver and the eigensolver never
    advance it. *)
Theorem rSVD_draws_once (rng : Type) (E : Utils.linalg rng) (Kx Ky : ndarray)
  (reg : float) (r powers offset : Z) (tol : float) (w : Utils.world rng) :
  (0 <= r + offset)%Z ->
  Utils.gen (snd (Utils.rSVD E Kx Ky reg (Some r) powers offset tol w))
  = snd (Utils.randn E (shape0 Kx) (Z.to_nat (r + offset)) (Utils.gen w)).
Proof.
  intros Hl. unfold Utils.rSVD.
  apply gen_bind_eq.
  2:{ intros f. unfold Utils.check_residual, print. repeat gen_step. }
  unfold Utils.rSVD_factors. cbv zeta.
  unfold bind at 1. unfold ret at 1.
  destruct (Z.ltb_spec (r + offset) 0); [lia|].
  unfold bind at 1. unfold ret at 1.
  apply gen_bind_eq.
  - unfold Utils.draw. destruct (Utils.randn E _ _ _); reflexivity.
  - intros Omega. unfold print. repeat gen_step.
Qed.

Lemma rSVD_draws_once_witness :
  Utils.gen (snd (Utils.rSVD Reference.lapack Examples.Kx1 Examples.Ky1 1 (Some 1%Z) 2 1
                    Utils.gep_tol (Utils.mk_world [] [3; 4; 5]%float)))
  = [5]%float.
Proof.
  rewrite (rSVD_draws_once (list float) Reference.lapack Examples.Kx1 Examples.Ky1 1%float
             1 2 1 Utils.gep_tol (Utils.mk_world [] [3; 4; 5]%float)) by lia.
  reflexivity.
Defined.

(** ** Fitting: what [_init_kernels] stores and what it leaves behind *)

Lemma init_kernels_ok (X0 Y0 : ndarray) (b b' : string) (w : Legacy.world) :
  Utils.parse_backend b X0 = Ok b' ->
  let k := Legacy.kernel (Legacy.self w) in
  Legacy._init_kernels X0 Y0 b w
  = (Ok tt,
     Legacy.mk_world
       (Legacy.set_dtype "float64"
          (Legacy.set_K_YX (k Y0 X0 b')
             (Legacy.set_K_Y (k Y0 Y0 b')
                (Legacy.set_K_X (k X0 X0 b')
                   (Legacy.set_backend b'
                      (Legacy.set_Y Y0 (Legacy.set_X X0 (Legacy.self w))))))))
       (Legacy.out w ++ [KernelEval b'; KernelEval b'; KernelEval b'])%list).
Proof.
  intros Hb k. unfold Legacy._init_kernels.
  rewrite !bind_setattr, bind_lift_result, Hb.
  unfold bind, Legacy.setattr, Legacy.getattr, Legacy.call_kernel, Legacy.emit, modify,
    log_event; simpl.
  rewrite <- !app_assoc. reflexivity.
Qed.

(** X7: when the backend is recognised, [_init_kernels] returns after
    exactly three kernel evaluations, all on the resolved backend, having
    stored the data, the resolved backend, the three Gram matrices and the
    dtype.  It leaves every other attribute as it found it: the rank, the
    regularization, the factors [U] and [V] and, on an estimator that is
    fitted again, the eigenvalues, eigenvectors, eigenfunctions and modes of
    the previous fit. *)
Theorem init_kernels_stores (X0 Y0 : ndarray) (b b' : string) (w : Legacy.world) :
  Utils.parse_backend b X0 = Ok b' ->
  let k := Legacy.kernel (Legacy.self w) in
  let s := Legacy.self w in
  exists w',
    Legacy._init_kernels X0 Y0 b w = (Ok tt, w')
    /\ Legacy.out w' = (Legacy.out w ++ [KernelEval b'; KernelEval b'; KernelEval b'])%list
    /\ Legacy.X (Legacy.self w') = Some X0
    /\ Legacy.Y (Legacy.self w') = Some Y0
    /\ Legacy.backend (Legacy.self w') = Some b'
    /\ Legacy.K_X (Legacy.self w') = Some (k X0 X0 b')
    /\ Legacy.K_Y (Legacy.self w') = Some (k Y0 Y0 b')
    /\ Legacy.K_YX (Legacy.self w') = Some (k Y0 X0 b')
    /\ Legacy.dtype (Legacy.self w') = Some "float64"
    /\ Legacy.hyperparameters (Legacy.self w') = Legacy.hyperparameters s
    /\ Legacy.factors (Legacy.self w') = Legacy.factors s
    /\ Legacy.spectral_data (Legacy.self w') = Legacy.spectral_data s.
Proof.
  intros Hb k s. eexists. split; [apply (init_kernels_ok X0 Y0 b b' w Hb)|].
  repeat split.
Qed.

Lemma init_kernels_stores_witness :
  exists w',
    Legacy._init_kernels Examples.X2 Examples.Y21 "auto" Examples.decomposed_ridge = (Ok tt, w')
    /\ Legacy.backend (Legacy.self w') = Some "cpu"
    /\ Legacy._evals (Legacy.self w') = Some [(2, 0); (1, 0)]%float.
Proof.
  destruct (init_kernels_stores Examples.X2 Examples.Y21 "auto" "cpu" Examples.decomposed_ridge
              eq_refl)
    as (w' & Hrun & _ & _ & _ & Hb & _ & _ & _ & _ & _ & _ & Hs).
  exists w'. split; [exact Hrun|]. split; [exact Hb|].
  apply (f_equal (fun t => fst (fst (fst (fst (fst (fst t))))))) in Hs.
  simpl in Hs. rewrite Hs. vm_compute. reflexivity.
Defined.

(** X8: the two ridge estimators ignore the backend they are given.
    [KernelRidgeRegression.fit] stores ['cpu'] and computes its Gram matrices
    there, [TruncatedKernelRidgeRegression.fit] stores ['keops']; each warns
    exactly when the caller asked for anything else, so the truncated
    estimator warns on its own default ['auto']. *)
Theorem ridge_fits_force_backend (X0 Y0 : ndarray) (b : string) (w : Legacy.world) :
  let k := Legacy.kernel (Legacy.self w) in
  let dense := snd (Legacy.KernelRidgeRegression_fit X0 Y0 b w) in
  let truncated := snd (Legacy.TruncatedKernelRidgeRegression_fit X0 Y0 b w) in
  Legacy.backend (Legacy.self dense) = Some "cpu"
  /\ Legacy.K_X (Legacy.self dense) = Some (k X0 X0 "cpu")
  /\ Legacy.out dense
     = (Legacy.out w
        ++ (if b =? "cpu" then []
            else [Warn "Keops backend not implemented for KernelRidgeRegression. Use TruncatedKernelRidgeRegression instead. Forcing 'cpu' backend. "])
        ++ [KernelEval "cpu"; KernelEval "cpu"; KernelEval "cpu"])%list
  /\ Legacy.backend (Legacy.self truncated) = Some "keops"
  /\ Legacy.K_X (Legacy.self truncated) = Some (k X0 X0 "keops")
  /\ Legacy.out truncated
     = (Legacy.out w
        ++ (if b =? "keops" then []
            else [Warn "CPU backend not implemented for TruncatedKernelRidgeRegression. Use KernelRidgeRegression instead. Forcing 'keops' backend. "])
        ++ [KernelEval "keops"; KernelEval "keops"; KernelEval "keops"])%list.
Proof.
  intros k dense truncated. subst dense truncated.
  unfold Legacy.KernelRidgeRegression_fit, Legacy.TruncatedKernelRidgeRegression_fit.
  destruct (b =? "cpu"), (b =? "keops"); simpl;
    unfold log_event; rewrite <- ?app_assoc; repeat split.
Qed.

(** ** The principal-component fit *)

Lemma forallb_id_map {A} (f : A -> bool) (l : list A) :
  forallb (fun b => b) (map f l) = true <-> Forall (fun x => f x = true) l.
Proof.
  induction l as [|x l IH]; simpl.
  - split; [constructor | reflexivity].
  - rewrite andb_true_iff, IH. split.
    + intros [Hx Hl]. constructor; assumption.
    + intros H. inversion H; auto.
Qed.

Lemma bind_getattr_some {A B} (name : string) (proj : Legacy.estimator -> option A)
  (f : A -> M Legacy.world B) (w : Legacy.world) (a : A) :
  proj (Legacy.self w) = Some a ->
  bind (Legacy.getattr name proj) f w = f a w.
Proof. intros H. rewrite bind_getattr, H. reflexivity. Qed.

Lemma bind_getattr_none {A B} (name : string) (proj : Legacy.estimator -> option A)
  (f : A -> M Legacy.world B) (w : Legacy.world) :
  proj (Legacy.self w) = None ->
  exists msg, bind (Legacy.getattr name proj) f w = (Raise (AttributeError msg), w).
Proof. intros H. rewrite bind_getattr, H. eauto. Qed.

Lemma bind_assoc {S A B C} (m : M S A) (g : A -> M S B) (f : B -> M S C) (s : S) :
  bind (bind m g) f s = bind m (fun x => bind (g x) f) s.
Proof. unfold bind. destruct (m s) as [[a|e] s1]; reflexivity. Qed.

Lemma bind_ret {S A B} (a : A) (f : A -> M S B) (s : S) : bind (ret a) f s = f a s.
Proof. reflexivity. Qed.

(** The dense branch of the fit, run on an estimator whose rank is set. *)
Lemma pcr_fit_dense_run (E : Legacy.externals) (X0 Y0 : ndarray) (b : string) (r : Z)
  (w : Legacy.world) :
  Utils.parse_backend b X0 = Ok "cpu" ->
  Legacy.rank (Legacy.self w) = Some r ->
  let K := Legacy.kernel (Legacy.self w) X0 X0 "cpu" in
  let w1 := snd (Legacy._init_kernels X0 Y0 b w) in
  Legacy.PrincipalComponentRegression_fit E X0 Y0 b w
  = match Legacy.eigh E K with
    | Raise e => (Raise e, w1)
    | Ok sv =>
        let S1 := slice_to r (rev (fst sv)) in
        let V1 := mkarr (shape0 (snd sv)) (slice_to r (rev (columns (snd sv)))) in
        if forallb (fun b => b) (map (fun x => (Legacy.svd_tol <? x)%float) S1)
        then (Ok tt,
              Legacy.mk_world
                (Legacy.set_U (Legacy.rescaled V1 S1 (shape0 K))
                   (Legacy.set_V (mscale (PrimFloat.sqrt (float_of_nat (shape0 K))) V1)
                      (Legacy.self w1)))
                (Legacy.out w1))
        else (Raise (TypeError "only integer scalar arrays can be converted to a scalar index"),
              w1)
    end.
Proof.
  intros Hb Hr K w1.
  unfold Legacy.PrincipalComponentRegression_fit.
  unfold bind at 1. subst w1. rewrite (init_kernels_ok X0 Y0 b "cpu" w Hb).
  cbn [snd]. fold K.
  set (w1 := Legacy.mk_world _ _).
  assert (HK : Legacy.K_X (Legacy.self w1) = Some K) by reflexivity.
  assert (HB : Legacy.backend (Legacy.self w1) = Some "cpu") by reflexivity.
  assert (HR : Legacy.rank (Legacy.self w1) = Some r) by exact Hr.
  rewrite (bind_getattr_some _ _ _ w1 K HK). cbv zeta.
  rewrite (bind_getattr_some _ _ _ w1 K HK).
  rewrite (bind_getattr_some _ _ _ w1 "cpu" HB).
  change ("cpu" =? "keops") with false. cbv iota.
  rewrite bind_assoc, bind_lift_result.
  destruct (Legacy.eigh E K) as [sv|e]; [|reflexivity].
  rewrite bind_assoc, (bind_getattr_some _ _ _ w1 r HR).
  rewrite bind_assoc, (bind_getattr_some _ _ _ w1 r HR).
  rewrite bind_ret. cbn [fst snd].
  destruct (forallb _ _); reflexivity.
Qed.

Lemma keeps_bind_raise {T A B} (mu : Legacy.world -> T) (e : exn)
  (f : A -> M Legacy.world B) :
  Legacy.keeps mu (bind (lift_result (Raise e)) f).
Proof. intros w. reflexivity. Qed.

(** X9: [PrincipalComponentRegression.fit] never changes the stored rank,
    on any backend and whether it returns or raises: the only assignment to
    [self.rank] follows the slice [V[:_test]], which always raises. *)
Theorem pcr_fit_never_changes_rank (E : Legacy.externals) (X0 Y0 : ndarray) (b : string)
  (w : Legacy.world) :
  Legacy.rank (Legacy.self (snd (Legacy.PrincipalComponentRegression_fit E X0 Y0 b w)))
  = Legacy.rank (Legacy.self w).
Proof.
  revert w. change (Legacy.keeps Legacy.stored_rank
                      (Legacy.PrincipalComponentRegression_fit E X0 Y0 b)).
  unfold Legacy.PrincipalComponentRegression_fit.
  apply keeps_bind; [keeps_tac rank_obligation | intros _].
  apply keeps_bind; [keeps_tac rank_obligation | intros kx].
  cbv zeta.
  apply keeps_bind; [keeps_tac rank_obligation | intros K].
  apply keeps_bind; [keeps_tac rank_obligation | intros b'].
  apply keeps_bind; [keeps_tac rank_obligation | intros sv].
  destruct (forallb _ _).
  - keeps_tac rank_obligation.
  - unfold Legacy.slice_rows_to_mask. apply keeps_bind_raise.
Qed.

Lemma diag_mat_shape1 (d : vec) : shape1 (diag_mat d) = List.length d.
Proof.
  unfold diag_mat, shape1; simpl.
  rewrite length_map, length_combine, length_seq. lia.
Qed.

Lemma mscale_shape1 (a : float) (A : ndarray) : shape1 (mscale a A) = shape1 A.
Proof. unfold mscale, shape1; simpl. apply length_map. Qed.

Lemma rescaled_shape1 (V0 : ndarray) (S0 : vec) (dim : nat) :
  shape1 (Legacy.rescaled V0 S0 dim) = List.length S0.
Proof.
  unfold Legacy.rescaled.
  now rewrite mscale_shape1, matmul_shape1, diag_mat_shape1, length_map.
Qed.

(** X10: on the dense backend, with a non-negative rank [r],
    [PrincipalComponentRegression.fit] returns exactly when [eigh] succeeds on
    the Gram matrix and each of the [r] largest eigenvalues it kept exceeds
    [2.2e-16]; it then stores [U] and [V] with at most [r] columns each.  In
    every other run it raises and stores no factor. *)
Theorem pcr_fit_dense (E : Legacy.externals) (X0 Y0 : ndarray) (b : string) (r : Z)
  (w : Legacy.world) :
  Utils.parse_backend b X0 = Ok "cpu" ->
  Legacy.rank (Legacy.self w) = Some r ->
  (0 <= r)%Z ->
  let K := Legacy.kernel (Legacy.self w) X0 X0 "cpu" in
  let run := Legacy.PrincipalComponentRegression_fit E X0 Y0 b w in
  (fst run = Ok tt
   <-> exists S0 V0,
        Legacy.eigh E K = Ok (S0, V0)
        /\ Forall (fun x => (Legacy.svd_tol <? x)%float = true) (slice_to r (rev S0)))
  /\ (fst run = Ok tt ->
      exists u v,
        Legacy.U (Legacy.self (snd run)) = Some u
        /\ Legacy.V (Legacy.self (snd run)) = Some v
        /\ (Z.of_nat (shape1 u) <= r)%Z
        /\ (Z.of_nat (shape1 v) <= r)%Z)
  /\ (fst run <> Ok tt ->
      Legacy.factors (Legacy.self (snd run)) = Legacy.factors (Legacy.self w)).
Proof.
  intros Hb Hr Hr0 K run. subst run.
  rewrite (pcr_fit_dense_run E X0 Y0 b r w Hb Hr). fold K.
  rewrite (init_kernels_ok X0 Y0 b "cpu" w Hb). cbn [snd].
  destruct (Legacy.eigh E K) as [[S0 V0]|e]; cbn [fst snd].
  2:{ split; [|split].
      - split; [discriminate | intros (S0 & V0 & H & _); discriminate H].
      - discriminate.
      - reflexivity. }
  destruct (forallb (fun b0 => b0) (map (fun x => (Legacy.svd_tol <? x)%float)
                                        (slice_to r (rev S0)))) eqn:Ht; cbn [fst snd].
  - apply forallb_id_map in Ht. split; [|split].
    + split; [intros _; exists S0, V0; auto | reflexivity].
    + intros _. eexists. eexists. split; [reflexivity|]. split; [reflexivity|].
      rewrite rescaled_shape1, mscale_shape1. unfold shape1; cbn [columns].
      split; apply slice_to_length; exact Hr0.
    + intros H. exfalso. apply H. reflexivity.
  - split; [|split].
    + split; [discriminate|].
      intros (S0' & V0' & H & HF). injection H as <- <-.
      apply (proj2 (forallb_id_map _ _)) in HF.
      discriminate (eq_trans (eq_sym HF) Ht).
    + discriminate.
    + reflexivity.
Qed.

Lemma pcr_fit_dense_witness :
  let run := Legacy.PrincipalComponentRegression_fit Reference.scipy Examples.X2 Examples.Y21
               "cpu" Examples.new_pcr in
  fst run = Ok tt
  /\ exists u v,
       Legacy.U (Legacy.self (snd run)) = Some u
       /\ Legacy.V (Legacy.self (snd run)) = Some v
       /\ (Z.of_nat (shape1 u) <= 2)%Z
       /\ (Z.of_nat (shape1 v) <= 2)%Z.
Proof.
  intros run.
  assert (Hrun : fst run = Ok tt) by (vm_compute; reflexivity).
  split; [exact Hrun|].
  destruct (pcr_fit_dense Reference.scipy Examples.X2 Examples.Y21 "cpu" 2 Examples.new_pcr
              eq_refl eq_refl ltac:(lia)) as (_ & H & _).
  exact (H Hrun).
Defined.
